(** * aloha/robot_utils.py: recorders, trajectory playback, base-action filters

    A shallow embedding of [src/aloha/robot_utils.py].  Python floats are
    IEEE binary64 numbers; the program is written once over an interface of
    the float operations it uses ([PyFloat]) and read in two ways:

    - [Binary64]: Rocq's primitive binary64 floats, the arithmetic the
      interpreter really runs;
    - [Exact]: exact rationals, with one extra value for a computation
      that has left the finite numbers; the arithmetic in which statements
      such as "the mean of equal differences d is d" hold without rounding.

    Facts about shapes, lengths, traces and exceptions are proved for any
    arithmetic; facts about values are proved in exact arithmetic and
    followed on floats where the float operations allow it.

    Effects (actuator commands, sleeps, prints) are recorded in a trace,
    exceptions are values.  The robot driver, the middleware and the image
    bridge are outside the module and appear as data: a robot is the joint
    state it reports, a command is an event of the trace, and the messages
    of a subscription are a list that is delivered to its callback.

    The motor set-up functions ([setup_follower_bot], [setup_leader_bot],
    [set_standard_pid_gains], [set_low_pid_gains], [torque_on],
    [torque_off]) are fixed sequences of driver calls; what they do is
    the driver's and is not modelled. *)

From Stdlib Require Import ZArith QArith Qcanon List Lia.
From Stdlib Require Import PrimFloat FloatOps SpecFloat FloatAxioms.
From stdpp Require Import gmap strings list.

Local Open Scope Z_scope.

(** ** Exceptions, results and traced computations *)

Inductive exn : Type :=
| ValueError
| IndexError
| ZeroDivisionError
| OverflowError
| AttributeError.

Inductive outcome (A : Type) : Type :=
| Returned (a : A)
| Raised (e : exn).
Arguments Returned {A} a.
Arguments Raised {A} e.

#[global] Instance outcome_ret : MRet outcome := fun A a => Returned a.
#[global] Instance outcome_bind : MBind outcome := fun A B k m =>
  match m with
  | Returned a => k a
  | Raised e => Raised e
  end.

#[global] Instance outcome_fmap : FMap outcome := fun A B f m =>
  match m with
  | Returned a => Returned (f a)
  | Raised e => Raised e
  end.

(** [list_comp f l] is the list comprehension [[f(x) for x in l]]:
    elements are evaluated left to right and the first exception ends the
    evaluation. *)
Fixpoint list_comp {A B} (f : A -> outcome B) (l : list A) : outcome (list B) :=
  match l with
  | [] => Returned []
  | x :: l' =>
      y ← f x; ys ← list_comp f l'; Returned (y :: ys)
  end.

(** A computation with effects: the events it emitted, in order, and how it
    ended.  Events emitted before an exception stay in the trace. *)
Definition run (E A : Type) : Type := list E * outcome A.

#[global] Instance run_ret {E} : MRet (run E) := fun A a => ([], Returned a).
#[global] Instance run_bind {E} : MBind (run E) := fun A B k m =>
  match m with
  | (tr, Returned a) => let '(tr', r) := k a in (tr ++ tr', r)
  | (tr, Raised e) => (tr, Raised e)
  end.

Definition emit {E} (ev : E) : run E unit := ([ev], Returned tt).
Definition lift {E A} (o : outcome A) : run E A := ([], o).

(** [for x in l: body(x)] *)
Fixpoint for_each {E A} (l : list A) (body : A -> run E unit) : run E unit :=
  match l with
  | [] => mret tt
  | x :: l' => body x;; for_each l' body
  end.

(** [enumerate(l)] *)
Definition enumerate {A} (l : list A) : list (nat * A) :=
  zip (seq 0 (length l)) l.

(** [range(n)] for a Python int [n]: empty when [n <= 0]. *)
Definition range (n : Z) : list nat := seq 0 (Z.to_nat n).

(** ** The float operations the module uses *)

Class PyFloat (F : Type) : Type := {
  (** [float(n)] for a Python int [n] *)
  of_int : Z -> F;
  fadd : F -> F -> F;
  fsub : F -> F -> F;
  fmul : F -> F -> F;
  (** IEEE division, as numpy performs it: dividing by zero gives a
      non-finite value, not an exception *)
  fdiv : F -> F -> F;
  (** [x == 0] *)
  fis_zero : F -> bool;
  (** [int(x)]: truncation toward zero; [ValueError] on nan,
      [OverflowError] on an infinity *)
  to_int : F -> outcome Z;
  (** [numpy.float32(x)], read back as a float *)
  to_f32 : F -> F
}.

Declare Scope fl_scope.
Delimit Scope fl_scope with fl.
Infix "+" := fadd : fl_scope.
Infix "-" := fsub : fl_scope.
Infix "*" := fmul : fl_scope.
Infix "/" := fdiv : fl_scope.

(** The float denoted by the decimal literal [n/d], for ints [n] and [d]
    that floats represent exactly: IEEE division rounds correctly, so the
    quotient of the two is the float nearest to the decimal, which is what
    the parser builds ([0.9] is [dec 9 10], [1e-9] is [dec 1 (10^9)]). *)
Definition dec {F} `{PyFloat F} (n d : Z) : F := (of_int n / of_int d)%fl.

(** Python's [x / y] on floats raises on a zero divisor. *)
Definition py_truediv {F} `{PyFloat F} (x y : F) : outcome F :=
  if fis_zero y then Raised ZeroDivisionError else Returned (x / y)%fl.

(** *** Exact arithmetic *)

Module Exact.

(** A finite value is a rational.  [NonFinite] marks a computation that
    has left the finite numbers: it is what dividing by zero gives (nan or
    an infinity on floats), and every operation passes it on.  What floats
    make of nan and the infinities afterwards is read in [Binary64]. *)
Inductive t : Type :=
| Fin (q : Qc)
| NonFinite.

Definition lift2 (f : Qc -> Qc -> Qc) (x y : t) : t :=
  match x, y with
  | Fin a, Fin b => Fin (f a b)
  | _, _ => NonFinite
  end.

Definition div (x y : t) : t :=
  match x, y with
  | Fin a, Fin b => if decide (b = 0%Qc) then NonFinite else Fin (a / b)%Qc
  | _, _ => NonFinite
  end.

Definition is_zero (x : t) : bool :=
  match x with
  | Fin a => bool_decide (a = 0%Qc)
  | NonFinite => false
  end.

Definition trunc (x : t) : outcome Z :=
  match x with
  | Fin a => Returned (Z.quot (Qnum (this a)) (Zpos (Qden (this a))))
  | NonFinite => Raised ValueError
  end.

Definition of_Z (z : Z) : t := Fin (Q2Qc (inject_Z z)).

Definition is_finite (x : t) : bool :=
  match x with
  | Fin _ => true
  | NonFinite => false
  end.

Definition finite (x : t) : Prop := is_finite x = true.

(** Exact arithmetic does not round: [to_f32] changes nothing. *)
#[global] Instance exact_float : PyFloat t := {|
  of_int := of_Z;
  fadd := lift2 Qcplus;
  fsub := lift2 Qcminus;
  fmul := lift2 Qcmult;
  fdiv := div;
  fis_zero := is_zero;
  to_int := trunc;
  to_f32 := fun x => x
|}.

End Exact.

(** *** IEEE binary64 *)

Module Binary64.

(** [float(n)]: the int rounded to the nearest float, ties to even.
    (Python raises [OverflowError] above the largest float; the ints
    converted here are small counts and 32-bit seconds.) *)
Definition of_Z (z : Z) : float :=
  SF2Prim (binary_normalize prec emax z 0 false).

Definition trunc (x : float) : outcome Z :=
  match Prim2SF x with
  | S754_zero _ => Returned 0
  | S754_finite s m e =>
      let mag := if 0 <=? e then Zpos m * 2 ^ e else Zpos m / 2 ^ (- e) in
      Returned (cond_Zopp s mag)
  | S754_infinity _ => Raised OverflowError
  | S754_nan => Raised ValueError
  end.

(** Rounding to binary32 (24-bit significand, exponents up to 128). *)
Definition to_binary32 (x : float) : float :=
  match Prim2SF x with
  | S754_finite s m e =>
      SF2Prim (binary_normalize 24 128 (cond_Zopp s (Zpos m)) e s)
  | _ => x
  end.

(** Neither nan nor an infinity. *)
Definition is_finite (x : float) : bool :=
  match Prim2SF x with
  | S754_nan | S754_infinity _ => false
  | _ => true
  end.

Definition finite (x : float) : Prop := is_finite x = true.

(** Finite and not a zero. *)
Definition is_regular (x : float) : bool :=
  match Prim2SF x with
  | S754_finite _ _ _ => true
  | _ => false
  end.

Definition regular (x : float) : Prop := is_regular x = true.

#[global] Instance binary64_float : PyFloat float := {|
  of_int := of_Z;
  fadd := PrimFloat.add;
  fsub := PrimFloat.sub;
  fmul := PrimFloat.mul;
  fdiv := PrimFloat.div;
  fis_zero := PrimFloat.is_zero;
  to_int := trunc;
  to_f32 := to_binary32
|}.

End Binary64.

(** ** The numpy functions the module calls

    numpy is not part of the repository; these follow its implementation
    ([numpy/_core/function_base.py], [numeric.py], [_methods.py]) for the
    shapes the module passes: 0-d and 1-d float arrays. *)

Section Numpy.
Context {F : Type} `{PyFloat F}.

(** [numpy.arange(0, num)] as floats *)
Definition arange (num : Z) : list F :=
  (fun i => of_int (Z.of_nat i)) <$> range num.

(** The shape two 1-d arrays of lengths [a] and [b] broadcast to. *)
Definition broadcast_shapes (a b : nat) : outcome nat :=
  if (a =? b)%nat then Returned a
  else if (a =? 1)%nat then Returned b
  else if (b =? 1)%nat then Returned a
  else Raised ValueError.

(** [numpy.broadcast_to(v, (k,))] for a [v] that broadcasts to [k]. *)
Definition broadcast_to (v : list F) (k : nat) : list F :=
  match v with
  | [x] => replicate k x
  | _ => v
  end.

(** [y[-1, ...] = stop]: the last row of a non-empty array is replaced. *)
Definition set_last {A} (y : list A) (x : A) : list A :=
  <[pred (length y) := x]> y.

(** [numpy.linspace(start, stop, num)] for scalars: [endpoint=True],
    result of shape [(num,)]. *)
Definition linspace (start stop : F) (num : Z) : outcome (list F) :=
  if num <? 0 then Raised ValueError
  else
    let div := num - 1 in
    let delta := (stop - start)%fl in
    let y := arange num in
    let y :=
      if 0 <? div then
        let step := (delta / of_int div)%fl in
        if fis_zero step
        then (fun yi => (yi / of_int div * delta)%fl) <$> y
        else (fun yi => (yi * step)%fl) <$> y
      else (fun yi => (yi * delta)%fl) <$> y in
    let y := (fun yi => (yi + start)%fl) <$> y in
    Returned (if 1 <? num then set_last y stop else y).

(** [numpy.linspace(start, stop, num)] for 1-d arrays: result of shape
    [(num, k)], one row per sample.  The test for a zero step looks at
    all components at once. *)
Definition linspace_rows (start stop : list F) (num : Z)
  : outcome (list (list F)) :=
  if num <? 0 then Raised ValueError
  else
    let div := num - 1 in
    k ← broadcast_shapes (length stop) (length start);
    let start' := broadcast_to start k in
    let stop' := broadcast_to stop k in
    let delta := zip_with fsub stop' start' in
    let y := arange num in
    let y :=
      if 0 <? div then
        let step := (fun d => (d / of_int div)%fl) <$> delta in
        if existsb fis_zero step
        then (fun yi => (fun d => (yi / of_int div * d)%fl) <$> delta) <$> y
        else (fun yi => (fun s => (yi * s)%fl) <$> step) <$> y
      else (fun yi => (fun d => (yi * d)%fl) <$> delta) <$> y in
    let y := (fun row => zip_with fadd row start') <$> y in
    Returned (if 1 <? num then set_last y stop' else y).

(** A sum accumulated left to right from [0.0]: the loop of the dot
    product that [numpy.convolve] runs for every element of its result. *)
Definition seq_sum (a : list F) : F := foldl fadd (of_int 0) a.

(** [numpy.sum] of a 1-d float array is [numpy.add.reduce]: the identity
    [0.0] plus [pairwise_sum] of the elements
    ([numpy/_core/src/umath/loops_utils.h.src]), which adds in this order:

    - fewer than eight elements: left to right, from [0.0];
    - up to 128 elements: the first eight start eight accumulators,
      element [i] is added to accumulator [i mod 8] as long as whole
      groups of eight remain, the accumulators are added as
      [((r0 + r1) + (r2 + r3)) + ((r4 + r5) + (r6 + r7))], and the
      elements that remain are added to that, one by one;
    - more than 128 elements: the array is cut at [n / 2] rounded down
      to a multiple of eight, and the sums of the two parts are added. *)
Fixpoint accumulate8 (r : F * F * F * F * F * F * F * F) (a : list F)
  : F * F * F * F * F * F * F * F * list F :=
  match a with
  | a0 :: a1 :: a2 :: a3 :: a4 :: a5 :: a6 :: a7 :: rest =>
      let '(r0, r1, r2, r3, r4, r5, r6, r7) := r in
      accumulate8
        ((r0 + a0)%fl, (r1 + a1)%fl, (r2 + a2)%fl, (r3 + a3)%fl,
         (r4 + a4)%fl, (r5 + a5)%fl, (r6 + a6)%fl, (r7 + a7)%fl)
        rest
  | _ => (r, a)
  end.

(** [pairwise_sum] of at most 128 elements *)
Definition pairwise_block (a : list F) : F :=
  match a with
  | a0 :: a1 :: a2 :: a3 :: a4 :: a5 :: a6 :: a7 :: rest =>
      let '(r0, r1, r2, r3, r4, r5, r6, r7, tail) :=
        accumulate8 (a0, a1, a2, a3, a4, a5, a6, a7) rest in
      foldl fadd (((r0 + r1) + (r2 + r3)) + ((r4 + r5) + (r6 + r7)))%fl tail
  | _ => foldl fadd (of_int 0) a
  end.

(** [pairwise_sum]; every call halves the array, so that [fuel] is not
    used up when it starts as the length of the array
    ([pairwise_sum_fuel] below). *)
Fixpoint pairwise_sum (fuel : nat) (a : list F) : F :=
  let n := length a in
  if (n <=? 128)%nat then pairwise_block a
  else
    match fuel with
    | O => pairwise_block a
    | S fuel =>
        let n2 := (n / 2 - (n / 2) mod 8)%nat in
        (pairwise_sum fuel (take n2 a) + pairwise_sum fuel (drop n2 a))%fl
    end.

Definition np_sum (a : list F) : F :=
  (of_int 0 + pairwise_sum (length a) a)%fl.

(** [numpy.mean] of a 1-d array: the sum divided by the number of
    elements, with IEEE division (an empty array gives [0.0 / 0]). *)
Definition np_mean (a : list F) : F :=
  (np_sum a / of_int (Z.of_nat (length a)))%fl.

(** Element [k] of the full discrete convolution of [a] and [v]:
    the sum of [a[i] * v[k - i]] over the [i] where both exist, by
    increasing [i].  (numpy may hand the sum to a BLAS dot product; the
    order of the additions only changes the rounding.) *)
Definition convolve_at (a v : list F) (k : nat) : F :=
  seq_sum
    (flat_map
       (fun i =>
          match a !! i, (if (i <=? k)%nat then v !! (k - i)%nat else None) with
          | Some ai, Some vj => [(ai * vj)%fl]
          | _, _ => []
          end)
       (seq 0 (length a))).

(** The full convolution, of length [len(a) + len(v) - 1]. *)
Definition convolve_full (a v : list F) : list F :=
  convolve_at a v <$> seq 0 (length a + length v - 1)%nat.

(** [numpy.convolve(a, v, mode='same')]: the longer array is taken as
    [a]; the result has the length of the longer array and is the full
    convolution without its first [n - 1 - n // 2] elements, [n] being
    the length of the shorter one. *)
Definition convolve_same (a v : list F) : outcome (list F) :=
  let '(a, v) := if (length a <? length v)%nat then (v, a) else (a, v) in
  if (length a =? 0)%nat then Raised ValueError
  else if (length v =? 0)%nat then Raised ValueError
  else
    let n := length v in
    let n_left := (n / 2)%nat in
    Returned (take (length a) (drop (n - 1 - n_left)%nat (convolve_full a v))).

(** [numpy.ones(n)] *)
Definition ones (n : nat) : list F := replicate n (of_int 1).

End Numpy.

(** ** Python containers *)

(** [l[i]] for a non-negative index *)
Definition index {A} (l : list A) (i : nat) : outcome A :=
  match l !! i with
  | Some x => Returned x
  | None => Raised IndexError
  end.

(** [collections.deque(maxlen=...)] *)
Record deque (A : Type) : Type := {
  maxlen : option nat;
  items : list A
}.
Arguments maxlen {A} d.
Arguments items {A} d.

Definition deque_new {A} (m : nat) : deque A :=
  {| maxlen := Some m; items := [] |}.

(** [d.append(x)]: when the deque is full its oldest item is dropped. *)
Definition deque_append {A} (d : deque A) (x : A) : deque A :=
  let items' := items d ++ [x] in
  {| maxlen := maxlen d;
     items := match maxlen d with
              | Some m => drop (length items' - m)%nat items'
              | None => items'
              end |}.

(** [[traj[t] for traj in trajs]], where every [traj] has a point [t] *)
Definition column {A} (trajs : list (list A)) (t : nat) : list A :=
  flat_map (fun traj => option_list (traj !! t)) trajs.

(** ** Messages, robots and events *)

Module Msg.

(** [rospy.Time] and [std_msgs/Header] *)
Record Time : Type := { secs : Z; nsecs : Z }.
Record Header : Type := { stamp : Time }.

(** [sensor_msgs/Image], with its pixel buffer of type [Raw] *)
Record Image (Raw : Type) : Type := { header : Header; data : Raw }.
Arguments header {Raw} i.
Arguments data {Raw} i.

(** [sensor_msgs/JointState] *)
Record JointState (F : Type) : Type := {
  position : list F;
  velocity : list F;
  effort : list F
}.
Arguments position {F} j.
Arguments velocity {F} j.
Arguments effort {F} j.

(** [interbotix_xs_msgs/JointGroupCommand] and [JointSingleCommand].
    Both messages call their fields [name] and [cmd]; the group's are
    [name_group] and [cmd_group] here. *)
Record JointGroupCommand (F : Type) : Type := {
  name_group : string;
  cmd_group : list F
}.
Arguments name_group {F} j.
Arguments cmd_group {F} j.

Record JointSingleCommand (F : Type) : Type := { name : string; cmd : F }.
Arguments name {F} j.
Arguments cmd {F} j.

End Msg.

(** What the module needs of an [InterbotixManipulatorXS]: a name for the
    commands it receives and the joint state its core last reported
    ([bot.arm.core] and [bot.gripper.core] are one object). *)
Record InterbotixManipulatorXS (F : Type) : Type := {
  robot_name : string;
  joint_states : Msg.JointState F
}.
Arguments robot_name {F} i.
Arguments joint_states {F} i.

Inductive event (F : Type) : Type :=
(** [bot.arm.set_joint_positions(positions, blocking=False)] *)
| SetJointPositions (bot : string) (positions : list F)
(** [bot.gripper.core.pub_single.publish(msg)] *)
| Publish (bot : string) (msg : Msg.JointSingleCommand F)
(** [time.sleep(secs)] *)
| Sleep (seconds : F)
(** one call of [print]: the labelled numbers its text is made of, in the
    order of the text *)
| Print (fields : list (string * F)).
Arguments SetJointPositions {F} bot positions.
Arguments Publish {F} bot msg.
Arguments Sleep {F} seconds.
Arguments Print {F} fields.

(** ** The rate estimate of both recorders *)

Section DtHelper.
Context {F : Type} `{PyFloat F}.

(** [dt_helper], nested in both [print_diagnostics]:
    [ts[1:] - ts[:-1]] and its mean. *)
Definition dt_helper (ts : list F) : F :=
  let diff := zip_with fsub (drop 1 ts) (take (length ts - 1)%nat ts) in
  np_mean diff.

(** [1 / dt_helper(ts)], a numpy division *)
Definition freq (ts : list F) : F := (of_int 1 / dt_helper ts)%fl.

End DtHelper.

(** ** class ImageRecorder *)

Module ImageRecorder.
Section ImageRecorder.
Context {F : Type} `{PyFloat F}.
(** The pixel buffer of a message, the matrix [CvBridge] makes of it, and
    [self.bridge.imgmsg_to_cv2(_, desired_encoding='passthrough')]. *)
Context {Raw Mat : Type} (imgmsg_to_cv2 : Raw -> Mat).

(** The values of the attributes that [setattr] creates.  Only deques
    are ever stored under a [_timestamps] name; a reader that finds
    anything else there fails. *)
Inductive attr : Type :=
| ANone
| AImage (m : Mat)
| AInt (z : Z)
| ATimestamps (d : deque F).

(** The object: its two plain fields and the attributes named by
    f-strings, keyed by their names. *)
Record t : Type := {
  is_debug : bool;
  camera_names : list string;
  attrs : gmap string attr
}.

Definition setattr (self : t) (key : string) (v : attr) : t :=
  {| is_debug := is_debug self;
     camera_names := camera_names self;
     attrs := <[key := v]> (attrs self) |}.

Definition getattr (self : t) (key : string) : outcome attr :=
  match attrs self !! key with
  | Some v => Returned v
  | None => Raised AttributeError
  end.

(** [__init__]; the node, the subscriptions and the sleep are the
    middleware's. *)
Definition init (is_mobile is_debug : bool) : t :=
  let camera_names :=
    if is_mobile then ["cam_high"; "cam_left_wrist"; "cam_right_wrist"]
    else ["cam_high"; "cam_low"; "cam_left_wrist"; "cam_right_wrist"] in
  foldl
    (fun self cam_name =>
       let self := setattr self (cam_name +:+ "_image") ANone in
       let self := setattr self (cam_name +:+ "_secs") ANone in
       let self := setattr self (cam_name +:+ "_nsecs") ANone in
       if is_debug
       then setattr self (cam_name +:+ "_timestamps") (ATimestamps (deque_new 50))
       else self)
    {| is_debug := is_debug; camera_names := camera_names; attrs := ∅ |}
    camera_names.

(** The callback returns the object as it leaves it, together with how the
    call ended. *)
Definition image_cb (self : t) (cam_name : string) (msg : Msg.Image Raw)
  : t * outcome unit :=
  let self :=
    setattr self (cam_name +:+ "_image") (AImage (imgmsg_to_cv2 msg.(Msg.data))) in
  let self :=
    setattr self (cam_name +:+ "_secs") (AInt msg.(Msg.header).(Msg.stamp).(Msg.secs)) in
  let self :=
    setattr self (cam_name +:+ "_nsecs") (AInt msg.(Msg.header).(Msg.stamp).(Msg.nsecs)) in
  if is_debug self then
    match getattr self (cam_name +:+ "_timestamps") with
    | Returned (ATimestamps d) =>
        (setattr self (cam_name +:+ "_timestamps")
           (ATimestamps
              (deque_append d
                 (of_int msg.(Msg.header).(Msg.stamp).(Msg.secs)
                  + of_int msg.(Msg.header).(Msg.stamp).(Msg.secs) * dec 1 (10 ^ 9))%fl)),
         Returned tt)
    | Returned _ => (self, Raised AttributeError)
    | Raised e => (self, Raised e)
    end
  else (self, Returned tt).

Definition image_cb_cam_high := fun self msg => image_cb self "cam_high" msg.
Definition image_cb_cam_low := fun self msg => image_cb self "cam_low" msg.
Definition image_cb_cam_left_wrist :=
  fun self msg => image_cb self "cam_left_wrist" msg.
Definition image_cb_cam_right_wrist :=
  fun self msg => image_cb self "cam_right_wrist" msg.

Definition get_images (self : t) : outcome (list (string * attr)) :=
  list_comp (fun cam_name =>
          v ← getattr self (cam_name +:+ "_image"); Returned (cam_name, v))
       (camera_names self).

Definition print_diagnostics (self : t) : run (event F) unit :=
  for_each (camera_names self)
    (fun cam_name =>
       a ← lift (getattr self (cam_name +:+ "_timestamps"));
       match a with
       | ATimestamps d =>
           let image_freq := freq (items d) in
           emit (Print [(cam_name +:+ " image_freq", image_freq)])
       | _ => lift (Raised AttributeError)
       end);;
  emit (Print []).

End ImageRecorder.
End ImageRecorder.

(** ** class Recorder *)

Module Recorder.
Section Recorder.
Context {F : Type} `{PyFloat F}.

(** [None] is Python's [None] for the fields [__init__] sets, and a
    missing attribute for [qvel] and [data], which the first joint state
    creates, and for the three histories, which exist only when [is_debug]
    holds. *)
Record t : Type := {
  secs : option Z;
  nsecs : option Z;
  qpos : option (list F);
  qvel : option (list F);
  effort : option (list F);
  data : option (Msg.JointState F);
  arm_command : option (list F);
  gripper_command : option F;
  is_debug : bool;
  joint_timestamps : option (deque F);
  arm_command_timestamps : option (deque F);
  gripper_command_timestamps : option (deque F)
}.

Definition init (is_debug : bool) : t :=
  let history := if is_debug then Some (deque_new 50) else None in
  {| secs := None; nsecs := None; qpos := None; qvel := None;
     effort := None; data := None;
     arm_command := None; gripper_command := None;
     is_debug := is_debug;
     joint_timestamps := history;
     arm_command_timestamps := history;
     gripper_command_timestamps := history |}.

(** [self.<history>.append(time.time())], [now] being the clock's
    reading: the history after the call, and how the call ended. *)
Definition stamped (history : option (deque F)) (now : F)
  : option (deque F) * outcome unit :=
  match history with
  | Some d => (Some (deque_append d now), Returned tt)
  | None => (None, Raised AttributeError)
  end.

(** The callbacks return the object as they leave it, together with how
    the call ended. *)
Definition follower_state_cb (self : t) (msg : Msg.JointState F) (now : F)
  : t * outcome unit :=
  let '(history, result) :=
    if is_debug self then stamped (joint_timestamps self) now
    else (joint_timestamps self, Returned tt) in
  ({| secs := secs self; nsecs := nsecs self;
      qpos := Some (Msg.position msg);
      qvel := Some (Msg.velocity msg);
      effort := Some (Msg.effort msg);
      data := Some msg;
      arm_command := arm_command self;
      gripper_command := gripper_command self;
      is_debug := is_debug self;
      joint_timestamps := history;
      arm_command_timestamps := arm_command_timestamps self;
      gripper_command_timestamps := gripper_command_timestamps self |},
   result).

Definition follower_arm_commands_cb
  (self : t) (msg : Msg.JointGroupCommand F) (now : F) : t * outcome unit :=
  let '(history, result) :=
    if is_debug self then stamped (arm_command_timestamps self) now
    else (arm_command_timestamps self, Returned tt) in
  ({| secs := secs self; nsecs := nsecs self;
      qpos := qpos self; qvel := qvel self; effort := effort self;
      data := data self;
      arm_command := Some (Msg.cmd_group msg);
      gripper_command := gripper_command self;
      is_debug := is_debug self;
      joint_timestamps := joint_timestamps self;
      arm_command_timestamps := history;
      gripper_command_timestamps := gripper_command_timestamps self |},
   result).

Definition follower_gripper_commands_cb
  (self : t) (msg : Msg.JointSingleCommand F) (now : F) : t * outcome unit :=
  let '(history, result) :=
    if is_debug self then stamped (gripper_command_timestamps self) now
    else (gripper_command_timestamps self, Returned tt) in
  ({| secs := secs self; nsecs := nsecs self;
      qpos := qpos self; qvel := qvel self; effort := effort self;
      data := data self;
      arm_command := arm_command self;
      gripper_command := Some (Msg.cmd msg);
      is_debug := is_debug self;
      joint_timestamps := joint_timestamps self;
      arm_command_timestamps := arm_command_timestamps self;
      gripper_command_timestamps := history |},
   result).

(** Reading a history that [__init__] did not create fails. *)
Definition history_of (h : option (deque F)) : outcome (list F) :=
  match h with
  | Some d => Returned (items d)
  | None => Raised AttributeError
  end.

Definition print_diagnostics (self : t) : run (event F) unit :=
  joint_freq ← lift (freq <$> history_of (joint_timestamps self));
  arm_command_freq ← lift (freq <$> history_of (arm_command_timestamps self));
  gripper_command_freq ←
    lift (freq <$> history_of (gripper_command_timestamps self));
  emit (Print [("joint_freq", joint_freq);
               ("arm_command_freq", arm_command_freq);
               ("gripper_command_freq", gripper_command_freq)]).

End Recorder.
End Recorder.

(** ** Trajectory playback *)

Section Playback.
Context {F : Type} `{PyFloat F}.
(** [aloha.constants.DT], the control period in seconds *)
Variable DT : F.

Definition get_arm_joint_positions (bot : InterbotixManipulatorXS F) : list F :=
  take 6 (Msg.position (joint_states bot)).

Definition get_arm_gripper_positions (bot : InterbotixManipulatorXS F)
  : outcome F :=
  index (Msg.position (joint_states bot)) 6.

(** [int(move_time / DT)] *)
Definition num_steps_of (move_time : F) : outcome Z :=
  q ← py_truediv move_time DT; to_int q.

(** [traj_list] of [move_arms] *)
Definition arm_traj_list
  (bot_list : list (InterbotixManipulatorXS F))
  (target_pose_list : list (list F)) (num_steps : Z)
  : outcome (list (list (list F))) :=
  let curr_pose_list := get_arm_joint_positions <$> bot_list in
  let zipped_lists := zip curr_pose_list target_pose_list in
  list_comp (fun '(curr_pose, target_pose) =>
          linspace_rows curr_pose target_pose num_steps)
       zipped_lists.

Definition move_arms
  (bot_list : list (InterbotixManipulatorXS F))
  (target_pose_list : list (list F)) (move_time : F)
  : run (event F) unit :=
  num_steps ← lift (num_steps_of move_time);
  traj_list ← lift (arm_traj_list bot_list target_pose_list num_steps);
  for_each (range num_steps)
    (fun t =>
       for_each (enumerate bot_list)
         (fun '(bot_id, bot) =>
            traj ← lift (index traj_list bot_id);
            waypoint ← lift (index traj t);
            emit (SetJointPositions (robot_name bot) waypoint));;
       emit (Sleep DT)).

(** The default of [move_arms]'s [move_time], [1.0] *)
Definition move_time_default : F := of_int 1.

(** [traj_list] of [move_grippers] *)
Definition gripper_traj_list
  (bot_list : list (InterbotixManipulatorXS F))
  (target_pose_list : list F) (num_steps : Z)
  : outcome (list (list F)) :=
  curr_pose_list ← list_comp get_arm_gripper_positions bot_list;
  let zipped_lists := zip curr_pose_list target_pose_list in
  list_comp (fun '(curr_pose, target_pose) =>
          linspace curr_pose target_pose num_steps)
       zipped_lists.

(** The one command object is given a new [cmd] before every publish,
    and a publish sends the object as it then is. *)
Definition move_grippers
  (bot_list : list (InterbotixManipulatorXS F))
  (target_pose_list : list F) (move_time : F)
  : run (event F) unit :=
  let gripper_command := {| Msg.name := "gripper"; Msg.cmd := of_int 0 |} in
  num_steps ← lift (num_steps_of move_time);
  traj_list ← lift (gripper_traj_list bot_list target_pose_list num_steps);
  for_each (range num_steps)
    (fun t =>
       for_each (enumerate bot_list)
         (fun '(bot_id, bot) =>
            traj ← lift (index traj_list bot_id);
            waypoint ← lift (index traj t);
            let gripper_command :=
              {| Msg.name := Msg.name gripper_command; Msg.cmd := waypoint |} in
            emit (Publish (robot_name bot) gripper_command));;
       emit (Sleep DT)).

End Playback.

(** ** Base actions *)

Section BaseAction.
Context {F : Type} `{PyFloat F}.

(** A base action is the pair (linear velocity, angular velocity). *)
Definition calibrate_linear_vel (base_action : F * F) (c : option F) : F * F :=
  let c := match c with None => of_int 0 | Some c => c end in
  let v := base_action.1 in
  let w := base_action.2 in
  ((v - c * w)%fl, w).

(** [base_action] is an array of shape [(n, 2)], a list of rows. *)
Definition smooth_base_action (base_action : list (F * F))
  : outcome (list (F * F)) :=
  let kernel := (fun x => (x / of_int 5)%fl) <$> ones 5 in
  column0 ← convolve_same (fst <$> base_action) kernel;
  column1 ← convolve_same (snd <$> base_action) kernel;
  Returned ((fun '(x, y) => (to_f32 x, to_f32 y)) <$> zip column0 column1).

Definition postprocess_base_action (base_action : F * F) : F * F :=
  let '(linear_vel, angular_vel) := base_action in
  let angular_vel := (angular_vel * dec 9 10)%fl in
  (linear_vel, angular_vel).

End BaseAction.

(** ** The subscriptions of the recorders

    [__init__] subscribes one callback per topic and the middleware calls
    it once per message.  The callbacks of one recorder write to
    attributes of their own, so their calls are taken one after the other,
    in the order of arrival; a callback that raises leaves the object as it
    then is, and the next message is delivered to that object. *)

Section Subscriptions.
Context {F : Type} `{PyFloat F}.
Context {Raw Mat : Type} (imgmsg_to_cv2 : Raw -> Mat).

(** The [if]/[elif] chain of [ImageRecorder.__init__] that picks the
    callback of a camera; [None] is its [raise NotImplementedError]. *)
Definition callback_func (cam_name : string)
  : option (ImageRecorder.t (F:=F) (Mat:=Mat) -> Msg.Image Raw ->
            ImageRecorder.t (F:=F) (Mat:=Mat) * outcome unit) :=
  if decide (cam_name = "cam_high")
  then Some (ImageRecorder.image_cb_cam_high imgmsg_to_cv2)
  else if decide (cam_name = "cam_low")
  then Some (ImageRecorder.image_cb_cam_low imgmsg_to_cv2)
  else if decide (cam_name = "cam_left_wrist")
  then Some (ImageRecorder.image_cb_cam_left_wrist imgmsg_to_cv2)
  else if decide (cam_name = "cam_right_wrist")
  then Some (ImageRecorder.image_cb_cam_right_wrist imgmsg_to_cv2)
  else None.

(** A message on the topic of camera [cam_name]: the cameras of
    [camera_names] are the ones subscribed to. *)
Definition on_image (self : ImageRecorder.t (F:=F) (Mat:=Mat))
    (cam_name : string) (msg : Msg.Image Raw)
  : ImageRecorder.t (F:=F) (Mat:=Mat) :=
  if decide (cam_name ∈ ImageRecorder.camera_names self) then
    match callback_func cam_name with
    | Some cb => (cb self msg).1
    | None => self
    end
  else self.

Definition on_images (self : ImageRecorder.t (F:=F) (Mat:=Mat))
    (msgs : list (string * Msg.Image Raw))
  : ImageRecorder.t (F:=F) (Mat:=Mat) :=
  foldl (fun self '(cam_name, msg) => on_image self cam_name msg) self msgs.

(** The messages of one camera among [msgs], in the order of arrival. *)
Definition of_camera (cam_name : string) (msgs : list (string * Msg.Image Raw))
  : list (Msg.Image Raw) :=
  omap (fun '(c, msg) => if decide (c = cam_name) then Some msg else None) msgs.

(** What [image_cb] appends to the history of a camera for [msg]. *)
Definition stamp_appended (msg : Msg.Image Raw) : F :=
  (of_int msg.(Msg.header).(Msg.stamp).(Msg.secs)
   + of_int msg.(Msg.header).(Msg.stamp).(Msg.secs) * dec 1 (10 ^ 9))%fl.

(** The three topics of a [Recorder], each message with the reading of
    [time.time()] in its callback. *)
Inductive message : Type :=
| JointStates (msg : Msg.JointState F) (now : F)
| JointGroup (msg : Msg.JointGroupCommand F) (now : F)
| JointSingle (msg : Msg.JointSingleCommand F) (now : F).

Definition on_message (self : Recorder.t (F:=F)) (m : message)
  : Recorder.t (F:=F) :=
  match m with
  | JointStates msg now => (Recorder.follower_state_cb self msg now).1
  | JointGroup msg now => (Recorder.follower_arm_commands_cb self msg now).1
  | JointSingle msg now => (Recorder.follower_gripper_commands_cb self msg now).1
  end.

Definition on_messages (self : Recorder.t (F:=F)) (ms : list message)
  : Recorder.t (F:=F) :=
  foldl on_message self ms.

(** The joint states, arm commands and gripper commands among [ms], each
    with its clock reading, in the order of arrival. *)
Definition joint_states_of (ms : list message) : list (Msg.JointState F * F) :=
  omap (fun m => match m with JointStates msg now => Some (msg, now) | _ => None end) ms.

Definition arm_commands_of (ms : list message)
  : list (Msg.JointGroupCommand F * F) :=
  omap (fun m => match m with JointGroup msg now => Some (msg, now) | _ => None end) ms.

Definition gripper_commands_of (ms : list message)
  : list (Msg.JointSingleCommand F * F) :=
  omap (fun m => match m with JointSingle msg now => Some (msg, now) | _ => None end) ms.

End Subscriptions.

(** The last [n] elements of a list: what a deque of [maxlen=n] that
    was empty holds once the elements have been appended. *)
Definition last_n {A} (n : nat) (l : list A) : list A :=
  drop (length l - n)%nat l.

(** ** Robots and statements used below *)

(** A robot whose core reports the joint positions [joints]. *)
Definition robot {F} (n : string) (joints : list F) : InterbotixManipulatorXS F :=
  {| robot_name := n;
     joint_states :=
       {| Msg.position := joints; Msg.velocity := []; Msg.effort := [] |} |}.


(** A diagnostics line that gives a rate for [label] as a number. *)
Definition prints_rate {F} (label : string) (x : F) (ev : event F) : Prop :=
  match ev with
  | Print fields => (label, x) ∈ fields
  | _ => False
  end.

(** The value of a finite exact number. *)
Definition value (x : Exact.t) : option Q :=
  match x with
  | Exact.Fin q => Some (this q)
  | Exact.NonFinite => None
  end.

(** Point [t] of [num] evenly spaced points on the line from [s] to [e],
    both ends included. *)
Definition on_line (s e : Qc) (t : nat) (num : Z) : Qc :=
  (s + Q2Qc (inject_Z (Z.of_nat t)) * (e - s) / Q2Qc (inject_Z (num - 1)))%Qc.

(** The rows [j - 2] to [j + 2] of an array, as far as they exist. *)
Definition window {A} (l : list A) (j : nat) : list A :=
  take (j + 3 - (j - 2))%nat (drop (j - 2)%nat l).

(** The sum of a list of rationals. *)
Definition Qcsum (qs : list Qc) : Qc := foldr Qcplus 0%Qc qs.

(** Two robots at rest with seven reported joints, and targets for them. *)
Definition two_bots {F} `{PyFloat F} : list (InterbotixManipulatorXS F) :=
  [robot "left" (of_int <$> [0; 0; 0; 0; 0; 0; 1]);
   robot "right" (of_int <$> [1; 1; 1; 1; 1; 1; 0])].

Definition two_arm_targets {F} `{PyFloat F} : list (list F) :=
  [of_int <$> [6; 6; 6; 6; 6; 6]; of_int <$> [2; 3; 4; 5; 6; 7]].

Definition two_gripper_targets {F} `{PyFloat F} : list F :=
  [of_int 0; of_int 1].

(** * Properties *)

(** ** Results and loops *)

Lemma bind_Returned {A B} (a : A) (k : A -> outcome B) :
  (Returned a ≫= k) = k a.
Proof. done. Qed.

Lemma list_comp_inv {A B} (f : A -> outcome B) (l : list A) (ys : list B) :
  list_comp f l = Returned ys -> Forall2 (fun x y => f x = Returned y) l ys.
Proof.
  revert ys. induction l as [|x l IH]; intros ys; cbn.
  - intros [= <-]. constructor.
  - destruct (f x) as [y|e] eqn:Hfx; cbn; [|discriminate].
    destruct (list_comp f l) as [ys'|e] eqn:Hl; cbn; [|discriminate].
    intros [= <-]. constructor; auto.
Qed.

Lemma list_comp_total {A B} (f : A -> outcome B) (l : list A) :
  Forall (fun x => exists y, f x = Returned y) l ->
  exists ys, list_comp f l = Returned ys.
Proof.
  induction 1 as [|x l [y Hy] _ [ys IH]]; cbn; [by eexists|].
  rewrite Hy; cbn. rewrite IH; cbn. by eexists.
Qed.

Lemma list_comp_lookup {A B} (f : A -> outcome B) (l : list A) (ys : list B) i x :
  list_comp f l = Returned ys -> l !! i = Some x ->
  exists y, ys !! i = Some y /\ f x = Returned y.
Proof.
  intros Hys%list_comp_inv Hx.
  destruct (Forall2_lookup_l _ _ _ _ _ Hys Hx) as (y & Hy & Hf). eauto.
Qed.

Lemma list_comp_length {A B} (f : A -> outcome B) (l : list A) (ys : list B) :
  list_comp f l = Returned ys -> length ys = length l.
Proof. intros Hys%list_comp_inv. symmetry. by eapply Forall2_length. Qed.

Lemma zip_lookup {A B} (l : list A) (k : list B) i x y :
  l !! i = Some x -> k !! i = Some y -> zip l k !! i = Some (x, y).
Proof. intros Hx Hy. apply lookup_zip_with_Some. eauto. Qed.

Lemma length_range (n : Z) : length (range n) = Z.to_nat n.
Proof. unfold range. by rewrite length_seq. Qed.

Lemma run_bind_Returned {E A B} (a : A) (k : A -> run E B) :
  (lift (Returned a) ≫= k) = k a.
Proof. unfold lift. cbn. by destruct (k a). Qed.

Lemma index_middle {A} (pre post : list A) (x : A) :
  index (pre ++ x :: post) (length pre) = Returned x.
Proof. unfold index. by rewrite list_lookup_middle. Qed.

Lemma index_Some {A} (l : list A) (i : nat) (x : A) :
  l !! i = Some x -> index l i = Returned x.
Proof. unfold index. by intros ->. Qed.




(** One step of a playback: every robot of [bots] that has a path is sent
    its waypoint [t], in order. *)
Lemma dispatch_step_ok {F W} (mk : InterbotixManipulatorXS F -> W -> event F)
      (t : nat) (bots : list (InterbotixManipulatorXS F))
      (pre trajs post : list (list W)) (points : list W) :
  Forall2 (fun traj w => traj !! t = Some w) trajs points ->
  length trajs = length bots ->
  for_each (zip (seq (length pre) (length bots)) bots)
    (fun '(bot_id, bot) =>
       traj ← lift (index (pre ++ trajs ++ post) bot_id);
       waypoint ← lift (index traj t);
       emit (mk bot waypoint))
  = (zip_with mk bots points, Returned tt).
Proof.
  intros Hpts. revert pre bots.
  induction Hpts as [|traj w trajs points Hw _ IH]; intros pre [|bot bots] Hlen;
    try done.
  cbn [length seq zip_with for_each]. cbn in Hlen.
  change ((traj :: trajs) ++ post) with (traj :: (trajs ++ post)).
  rewrite index_middle, run_bind_Returned.
  rewrite (index_Some _ _ _ Hw), run_bind_Returned.
  specialize (IH (pre ++ [traj]) bots ltac:(lia)).
  rewrite length_app, Nat.add_1_r, <- app_assoc in IH. cbn in IH.
  cbn. rewrite IH. done.
Qed.



Lemma for_each_flat_map {E A} (l : list A) (body : A -> run E unit)
      (g : A -> list E) :
  Forall (fun x => body x = (g x, Returned tt)) l ->
  for_each l body = (flat_map g l, Returned tt).
Proof.
  induction 1 as [|x l Hx _ IH]; cbn; [done|].
  by rewrite Hx, IH.
Qed.

Lemma column_points {A} (trajs : list (list A)) (t n : nat) :
  (t < n)%nat -> Forall (fun traj => length traj = n) trajs ->
  Forall2 (fun traj w => traj !! t = Some w) trajs (column trajs t).
Proof.
  intros Ht. induction 1 as [|traj trajs Hlen _ IH]; [constructor|].
  unfold column. cbn [flat_map].
  destruct (lookup_lt_is_Some_2 traj t ltac:(lia)) as [w Hw].
  rewrite Hw. cbn. by constructor.
Qed.

(** A playback over robots that all have a path: step after step, every
    robot is sent its waypoint of that step, in the order of the list, and
    the loop pauses. *)
Lemma playback_trace {F W}
      (mk : InterbotixManipulatorXS F -> W -> event F) (pause : event F)
      (bots : list (InterbotixManipulatorXS F))
      (trajs : list (list W)) (num_steps : Z) :
  length trajs = length bots ->
  Forall (fun traj => length traj = Z.to_nat num_steps) trajs ->
  for_each (range num_steps)
    (fun t =>
       for_each (enumerate bots)
         (fun '(bot_id, bot) =>
            traj ← lift (index trajs bot_id);
            waypoint ← lift (index traj t);
            emit (mk bot waypoint));;
       emit pause)
  = (flat_map (fun t => zip_with mk bots (column trajs t) ++ [pause])
              (range num_steps),
     Returned tt).
Proof.
  intros Hlen Hpaths. apply for_each_flat_map.
  apply Forall_forall. intros t Ht.
  unfold range in Ht. apply elem_of_seq in Ht.
  pose proof (dispatch_step_ok mk t bots [] trajs [] (column trajs t)) as Hok.
  rewrite app_nil_r in Hok. cbn [length app] in Hok.
  unfold enumerate. rewrite Hok; [done| |done].
  eapply column_points; [|exact Hpaths]. lia.
Qed.

(** ** numpy: shapes of [linspace] *)

Section NumpyFacts.
Context {F : Type} `{PyFloat F}.

Lemma length_arange (n : Z) : length (arange (F:=F) n) = Z.to_nat n.
Proof. unfold arange. by rewrite length_fmap, length_range. Qed.

Lemma arange_head (n : Z) : 1 <= n -> head (arange (F:=F) n) = Some (of_int 0).
Proof.
  intros Hn. unfold arange, range.
  destruct (Z.to_nat n) as [|m] eqn:Hm; [lia|]. done.
Qed.

Lemma length_set_last {A} (y : list A) (x : A) :
  length (set_last y x) = length y.
Proof. apply length_insert. Qed.

Lemma last_set_last {A} (y : list A) (x : A) :
  y <> [] -> last (set_last y x) = Some x.
Proof.
  intros Hy. rewrite last_lookup, length_set_last.
  apply list_lookup_insert_eq. destruct y; [done|cbn; lia].
Qed.

Lemma head_set_last {A} (y : list A) (x : A) :
  (2 <= length y)%nat -> head (set_last y x) = head y.
Proof.
  intros Hy. rewrite !head_lookup.
  apply list_lookup_insert_ne. lia.
Qed.

Lemma broadcast_shapes_same (k : nat) : broadcast_shapes k k = Returned k.
Proof. unfold broadcast_shapes. by rewrite Nat.eqb_refl. Qed.

Lemma broadcast_to_same (v : list F) : broadcast_to v (length v) = v.
Proof. by destruct v as [|x [|y v]]. Qed.

(** A scalar path has [num] points whenever [num] is not negative. *)
Lemma linspace_length (start stop : F) (num : Z) (y : list F) :
  linspace start stop num = Returned y -> length y = Z.to_nat num.
Proof.
  unfold linspace. destruct (num <? 0); [done|].
  intros [= <-].
  assert (Hlen : forall y0 : list F,
    length (if 1 <? num then set_last y0 stop else y0) = length y0).
  { intros y0. destruct (1 <? num); [apply length_set_last|done]. }
  rewrite Hlen, length_fmap.
  destruct (0 <? num - 1); [destruct (fis_zero _)|];
    by rewrite length_fmap, length_arange.
Qed.

Lemma linspace_returns (start stop : F) (num : Z) :
  0 <= num -> exists y, linspace start stop num = Returned y.
Proof.
  intros Hn. unfold linspace.
  destruct (num <? 0) eqn:Hneg; [lia|]. by eexists.
Qed.

(** With two points or more the last one is [stop] itself. *)
Lemma linspace_last (start stop : F) (num : Z) (y : list F) :
  2 <= num -> linspace start stop num = Returned y -> last y = Some stop.
Proof.
  intros Hn Hy. pose proof (linspace_length _ _ _ _ Hy) as Hlen.
  revert Hy Hlen. unfold linspace.
  destruct (num <? 0) eqn:Hneg; [lia|].
  destruct (1 <? num) eqn:Hone; [|lia].
  intros [= <-] Hlen. rewrite length_set_last in Hlen.
  apply last_set_last. intros Hnil. rewrite Hnil in Hlen. cbn in Hlen. lia.
Qed.

(** The same for arrays of one shape: [num] rows, the last one [stop]. *)
Lemma linspace_rows_length (start stop : list F) (num : Z) (y : list (list F)) :
  linspace_rows start stop num = Returned y -> length y = Z.to_nat num.
Proof.
  unfold linspace_rows. destruct (num <? 0); [done|].
  destruct (broadcast_shapes _ _) as [k|e]; cbn; [|done].
  intros [= <-].
  assert (Hlen : forall (y0 : list (list F)) x,
    length (if 1 <? num then set_last y0 x else y0) = length y0).
  { intros y0 x. destruct (1 <? num); [apply length_set_last|done]. }
  rewrite Hlen, length_fmap.
  destruct (0 <? num - 1); [destruct (existsb _ _)|];
    by rewrite length_fmap, length_arange.
Qed.

Lemma linspace_rows_returns (start stop : list F) (num : Z) :
  0 <= num -> length stop = length start ->
  exists y, linspace_rows start stop num = Returned y.
Proof.
  intros Hn Hk. unfold linspace_rows.
  destruct (num <? 0) eqn:Hneg; [lia|].
  rewrite Hk, broadcast_shapes_same. cbn. by eexists.
Qed.

Lemma linspace_rows_last (start stop : list F) (num : Z) (y : list (list F)) :
  2 <= num -> length stop = length start ->
  linspace_rows start stop num = Returned y -> last y = Some stop.
Proof.
  intros Hn Hk Hy. pose proof (linspace_rows_length _ _ _ _ Hy) as Hlen.
  revert Hy Hlen. unfold linspace_rows.
  destruct (num <? 0) eqn:Hneg; [lia|].
  rewrite Hk, broadcast_shapes_same. cbn.
  destruct (1 <? num) eqn:Hone; [|lia].
  replace (broadcast_to stop (length start)) with stop
    by (rewrite <- Hk; symmetry; apply broadcast_to_same).
  intros [= <-] Hlen. rewrite length_set_last in Hlen.
  apply last_set_last. intros Hnil. rewrite Hnil in Hlen. cbn in Hlen. lia.
Qed.

End NumpyFacts.

(** ** Exact arithmetic: the first point of a path *)

Section ExactFacts.
Import Exact.

Lemma finite_inv (x : Exact.t) : finite x -> exists q, x = Fin q.
Proof. destruct x; [by eexists|done]. Qed.

Lemma Q2Qc_inject_Z_nonzero (z : Z) : z <> 0 -> Q2Qc (inject_Z z) <> 0%Qc.
Proof.
  intros Hz Heq. apply Q2Qc_eq_iff in Heq.
  unfold Qeq in Heq. cbn in Heq. lia.
Qed.

(** [0 * step + start] and [0 / div * delta + start] are [start]. *)
Lemma zero_step_add (s q : Qc) :
  (of_int 0 * Fin q + Fin s)%fl = Fin s.
Proof. cbn. f_equal. change (Q2Qc (inject_Z 0)) with 0%Qc. ring. Qed.

Lemma zero_div_step_add (s q : Qc) (div : Z) :
  0 < div -> (of_int 0 / of_int div * Fin q + Fin s)%fl = Fin s.
Proof.
  intros Hdiv. cbn. unfold Exact.div, of_Z.
  destruct (decide _) as [Hz|Hz].
  - by apply Q2Qc_inject_Z_nonzero in Hz; [|lia].
  - cbn. f_equal. change (Q2Qc (inject_Z 0)) with 0%Qc.
    field. by apply Q2Qc_inject_Z_nonzero; lia.
Qed.

Lemma linspace_head (start stop : Exact.t) (num : Z) (y : list Exact.t) :
  2 <= num -> finite start -> finite stop ->
  linspace start stop num = Returned y -> head y = Some start.
Proof.
  intros Hn [s ->]%finite_inv [e ->]%finite_inv Hy.
  pose proof (linspace_length _ _ _ _ Hy) as Hlen.
  revert Hy Hlen. unfold linspace.
  destruct (num <? 0) eqn:Hneg; [lia|].
  destruct (1 <? num) eqn:Hone; [|lia].
  destruct (0 <? num - 1) eqn:Hdiv; [|lia].
  intros [= <-] Hlen. rewrite length_set_last in Hlen.
  rewrite head_set_last by lia.
  pose proof (arange_head (F:=Exact.t) num ltac:(lia)) as Hhd.
  destruct (arange num) as [|y0 ys]; [done|]. injection Hhd as ->.
  destruct (decide _) as [Hz|_].
  { by apply Q2Qc_inject_Z_nonzero in Hz; [|lia]. }
  destruct (is_zero _); cbn [fmap list_fmap head]; f_equal.
  - apply (zero_div_step_add s (e - s) (num - 1)). lia.
  - apply zero_step_add.
Qed.

Lemma Forall_finite_inv (l : list Exact.t) :
  Forall finite l -> exists qs, l = Fin <$> qs.
Proof.
  induction 1 as [|x l [q ->]%finite_inv _ [qs ->]]; [by exists []|].
  by exists (q :: qs).
Qed.

Lemma zero_row_add (f : Exact.t -> Exact.t) (qs ss : list Qc) :
  (forall q s, (f (Fin q) + Fin s)%fl = Fin s) ->
  length qs = length ss ->
  zip_with fadd (f <$> (Fin <$> qs)) (Fin <$> ss) = Fin <$> ss.
Proof.
  intros Hf. revert ss.
  induction qs as [|q qs IH]; intros [|s ss] Hlen; try done.
  cbn in Hlen. cbn [fmap list_fmap zip_with]. rewrite Hf, IH by lia. done.
Qed.

Lemma sub_rows (es ss : list Qc) :
  zip_with fsub (Fin <$> es) (Fin <$> ss) = Fin <$> zip_with Qcminus es ss.
Proof.
  revert ss. induction es as [|e es IH]; intros [|s ss]; try done.
  cbn [fmap list_fmap zip_with]. by rewrite IH.
Qed.

Lemma div_row (ds : list Qc) (div : Z) :
  0 < div ->
  (fun d => (d / of_int div)%fl) <$> (Fin <$> ds)
  = Fin <$> ((fun d => (d / Q2Qc (inject_Z div))%Qc) <$> ds).
Proof.
  intros Hdiv. induction ds as [|d ds IH]; [done|].
  cbn [fmap list_fmap]. rewrite IH. f_equal.
  cbn. unfold Exact.div, of_Z. destruct (decide _) as [Hz|_]; [|done].
  by apply Q2Qc_inject_Z_nonzero in Hz; [|lia].
Qed.

Lemma linspace_rows_head (start stop : list Exact.t) (num : Z)
      (y : list (list Exact.t)) :
  2 <= num -> length stop = length start ->
  Forall finite start -> Forall finite stop ->
  linspace_rows start stop num = Returned y -> head y = Some start.
Proof.
  intros Hn Hk [ss ->]%Forall_finite_inv [es ->]%Forall_finite_inv Hy.
  pose proof (linspace_rows_length _ _ _ _ Hy) as Hlen.
  revert Hy Hlen. unfold linspace_rows.
  destruct (num <? 0) eqn:Hneg; [lia|].
  rewrite Hk, broadcast_shapes_same.
  rewrite bind_Returned.
  replace (broadcast_to (Fin <$> es) (length (Fin <$> ss))) with (Fin <$> es)
    by (rewrite <- Hk; symmetry; apply broadcast_to_same).
  rewrite broadcast_to_same.
  destruct (1 <? num) eqn:Hone; [|lia].
  destruct (0 <? num - 1) eqn:Hdiv; [|lia].
  rewrite sub_rows, div_row by lia.
  intros [= <-] Hlen. rewrite length_set_last in Hlen.
  rewrite head_set_last by lia.
  pose proof (arange_head (F:=Exact.t) num ltac:(lia)) as Hhd.
  destruct (arange num) as [|y0 ys]; [done|]. injection Hhd as ->.
  assert (Hd : length (zip_with Qcminus es ss) = length ss).
  { rewrite length_zip_with. rewrite !length_fmap in Hk. lia. }
  destruct (existsb _ _); cbn [fmap list_fmap head]; f_equal.
  - apply zero_row_add; [|done].
    intros q s. apply zero_div_step_add. lia.
  - apply zero_row_add; [|by rewrite length_fmap].
    intros q s. apply zero_step_add.
Qed.

End ExactFacts.

(** ** Binary64: adding a zero step *)

Section Binary64Facts.
Import Binary64.

Lemma SFeqb_refl (x : spec_float) :
  match x with S754_nan => False | _ => True end -> SFeqb x x = true.
Proof.
  destruct x as [s|s| |s m e]; try done; intros _; unfold SFeqb, SFcompare.
  - by destruct s.
  - destruct s; rewrite Z.compare_refl;
      by rewrite (Pos.compare_cont_refl m Eq).
Qed.


Lemma sub_zero_eqb (v z : float) (s : bool) :
  Prim2SF z = S754_zero s -> finite v -> (v - z =? v)%float = true.
Proof.
  unfold finite, is_finite. intros Hz Hv.
  rewrite FloatAxioms.eqb_spec, sub_spec, Hz.
  destruct (Prim2SF v) as [sv|sv| |sv mv ev]; try done.
  - by destruct s, sv.
  - by apply (SFeqb_refl (S754_finite sv mv ev)).
Qed.

Lemma zero_mul_finite (x : float) :
  finite x -> exists s, Prim2SF (of_int 0 * x)%fl = S754_zero s.
Proof.
  unfold finite, is_finite. intros Hx.
  change (of_int 0 * x)%fl with (0 * x)%float.
  rewrite mul_spec. change (Prim2SF 0) with (S754_zero false).
  destruct (Prim2SF x) as [sx|sx| |sx mx ex]; try done; by eexists.
Qed.






End Binary64Facts.

(** ** Binary64: [==] and [int] *)

Section Binary64Order.
Import Binary64.

(** [==] is equality on finite floats other than the zeros. *)
Lemma eqb_regular_eq (a b : float) :
  (a =? b)%float = true -> regular b -> a = b.
Proof.
  rewrite FloatAxioms.eqb_spec. unfold regular, is_regular.
  intros Heq Hb. apply Prim2SF_inj. revert Heq Hb.
  destruct (Prim2SF b) as [sb|sb| |sb mb eb]; try done.
  destruct (Prim2SF a) as [sa|sa| |sa ma ea]; try done;
    unfold SFeqb, SFcompare; try (by destruct sa); try (by destruct sb).
  intros Heq _.
  assert (Hcmp : (ea ?= eb) = Eq /\ Pos.compare_cont Eq ma mb = Eq /\ sa = sb).
  { destruct sa, sb; try done; destruct (ea ?= eb); try done;
      destruct (Pos.compare_cont Eq ma mb); done. }
  destruct Hcmp as (He%Z.compare_eq & Hm%Pos.compare_eq & ->). by subst.
Qed.



End Binary64Order.

(** ** Literals *)

Set Warnings "-inexact-float".

(** [dec] builds the floats that Python's literals denote. *)
Example literal_DT : dec 2 100 = 0.02%float.
Proof. reflexivity. Qed.

Example literal_0_9 : dec 9 10 = 0.9%float.
Proof. reflexivity. Qed.

Example literal_1e_9 : dec 1 (10 ^ 9) = 1e-9%float.
Proof. reflexivity. Qed.

Example to_f32_tenth : to_f32 0.1%float = 0.100000001490116119384765625%float.
Proof. reflexivity. Qed.

(** ** Trajectories *)

Lemma arm_traj_list_returns {F} `{PyFloat F}
      (bot_list : list (InterbotixManipulatorXS F))
      (targets : list (list F)) (num_steps : Z) :
  0 <= num_steps ->
  Forall2 (fun bot target =>
             length target = length (get_arm_joint_positions bot))
          bot_list targets ->
  exists paths, arm_traj_list bot_list targets num_steps = Returned paths.
Proof.
  intros Hn Hshape. unfold arm_traj_list. apply list_comp_total.
  apply Forall_lookup. intros i [curr target] Hi.
  apply lookup_zip_with_Some in Hi as (c & t & [= <- <-] & Hc & Ht).
  apply list_lookup_fmap_Some_1 in Hc as (bot & -> & Hbot).
  destruct (Forall2_lookup_l _ _ _ _ _ Hshape Hbot) as (t' & Ht' & Hlen).
  assert (t' = target) as -> by congruence.
  by apply linspace_rows_returns.
Qed.

Lemma gripper_traj_list_returns {F} `{PyFloat F}
      (bot_list : list (InterbotixManipulatorXS F))
      (targets : list F) (num_steps : Z) :
  0 <= num_steps ->
  Forall (fun bot => (6 < length (Msg.position (joint_states bot)))%nat)
         bot_list ->
  exists paths, gripper_traj_list bot_list targets num_steps = Returned paths.
Proof.
  intros Hn Hjoints. unfold gripper_traj_list.
  destruct (list_comp_total get_arm_gripper_positions bot_list) as [currs Hcurrs].
  { eapply Forall_impl; [exact Hjoints|]. intros bot Hbot. cbn in Hbot.
    unfold get_arm_gripper_positions, index.
    destruct (lookup_lt_is_Some_2 _ _ Hbot) as [x ->]. by eexists. }
  rewrite Hcurrs, bind_Returned. apply list_comp_total.
  apply Forall_forall. intros [curr target] _.
  by apply linspace_returns.
Qed.

(** With lists of one length and poses of one shape both [traj_list]s are
    computed, and the path of actuator [i] is [linspace] from its current
    position to target [i]. *)
Lemma traj_lists_paths {F} `{PyFloat F}
      (bot_list : list (InterbotixManipulatorXS F))
      (arm_targets : list (list F)) (gripper_targets : list F)
      (num_steps : Z) :
  0 <= num_steps ->
  length gripper_targets = length bot_list ->
  Forall2 (fun bot target =>
             length target = length (get_arm_joint_positions bot))
          bot_list arm_targets ->
  Forall (fun bot => (6 < length (Msg.position (joint_states bot)))%nat)
         bot_list ->
  exists arm_paths gripper_paths,
    arm_traj_list bot_list arm_targets num_steps = Returned arm_paths /\
    gripper_traj_list bot_list gripper_targets num_steps = Returned gripper_paths /\
    forall i bot, bot_list !! i = Some bot ->
      (exists path target,
          arm_paths !! i = Some path /\ arm_targets !! i = Some target /\
          length target = length (get_arm_joint_positions bot) /\
          linspace_rows (get_arm_joint_positions bot) target num_steps
          = Returned path) /\
      (exists path target curr,
          gripper_paths !! i = Some path /\ gripper_targets !! i = Some target /\
          Msg.position (joint_states bot) !! 6%nat = Some curr /\
          get_arm_gripper_positions bot = Returned curr /\
          linspace curr target num_steps = Returned path).
Proof.
  intros Hn Hglen Hshape Hjoints.
  destruct (arm_traj_list_returns bot_list arm_targets num_steps)
    as [arm_paths Harm_paths]; [done|done|].
  destruct (gripper_traj_list_returns bot_list gripper_targets num_steps)
    as [gripper_paths Hgripper_paths]; [done|done|].
  exists arm_paths, gripper_paths. split; [done|]. split; [done|].
  intros i bot Hbot. split.
  - destruct (Forall2_lookup_l _ _ _ _ _ Hshape Hbot) as (target & Ht & Hlen).
    unfold arm_traj_list in Harm_paths.
    destruct (list_comp_lookup _ _ _ i (get_arm_joint_positions bot, target) Harm_paths)
      as (path & Hpath & Hlin).
    { apply zip_lookup; [|done]. by rewrite list_lookup_fmap, Hbot. }
    by exists path, target.
  - destruct (lookup_lt_is_Some_2 gripper_targets i) as [target Ht].
    { rewrite Hglen. by eapply lookup_lt_Some. }
    pose proof (Forall_lookup_1 _ _ _ _ Hjoints Hbot) as Hjoint. cbn in Hjoint.
    destruct (lookup_lt_is_Some_2 _ _ Hjoint) as [curr Hcurr].
    assert (Hget : get_arm_gripper_positions bot = Returned curr).
    { unfold get_arm_gripper_positions, index. by rewrite Hcurr. }
    unfold gripper_traj_list in Hgripper_paths.
    destruct (list_comp get_arm_gripper_positions bot_list) as [currs|e] eqn:Hcurrs;
      [|done].
    rewrite bind_Returned in Hgripper_paths.
    destruct (list_comp_lookup _ _ _ i bot Hcurrs Hbot) as (curr' & Hcurr' & Hget').
    assert (curr' = curr) as -> by congruence.
    destruct (list_comp_lookup _ _ _ i (curr, target) Hgripper_paths)
      as (path & Hpath & Hlin).
    { by apply zip_lookup. }
    by exists path, target, curr.
Qed.

(** Without rounding: in exact arithmetic, with as many targets as
    actuators, finite positions and targets and two steps or more, every
    actuator's path has exactly [num_steps] points, begins at the
    actuator's current position and ends at its target. *)
Lemma trajectory_endpoints_exact
    (bot_list : list (InterbotixManipulatorXS Exact.t))
    (arm_targets : list (list Exact.t)) (gripper_targets : list Exact.t)
    (num_steps : Z) :
  2 <= num_steps ->
  length gripper_targets = length bot_list ->
  Forall2 (fun bot target =>
             length target = length (get_arm_joint_positions bot))
          bot_list arm_targets ->
  Forall (fun bot =>
            (6 < length (Msg.position (joint_states bot)))%nat /\
            Forall Exact.finite (Msg.position (joint_states bot)))
         bot_list ->
  Forall (Forall Exact.finite) arm_targets ->
  Forall Exact.finite gripper_targets ->
  exists arm_paths gripper_paths,
    arm_traj_list bot_list arm_targets num_steps = Returned arm_paths /\
    gripper_traj_list bot_list gripper_targets num_steps = Returned gripper_paths /\
    forall i bot, bot_list !! i = Some bot ->
      (exists path target,
          arm_paths !! i = Some path /\ arm_targets !! i = Some target /\
          length path = Z.to_nat num_steps /\
          head path = Some (get_arm_joint_positions bot) /\
          last path = Some target) /\
      (exists path target curr,
          gripper_paths !! i = Some path /\ gripper_targets !! i = Some target /\
          get_arm_gripper_positions bot = Returned curr /\
          length path = Z.to_nat num_steps /\
          head path = Some curr /\
          last path = Some target).
Proof.
  intros Hn Hglen Hshape Hbots Harm Hgrip.
  destruct (traj_lists_paths bot_list arm_targets gripper_targets num_steps)
    as (arm_paths & gripper_paths & Harm_paths & Hgripper_paths & Hpaths);
    [lia|done|done| |].
  { eapply Forall_impl; [exact Hbots|]. by intros bot [? _]. }
  exists arm_paths, gripper_paths. split; [done|]. split; [done|].
  intros i bot Hbot.
  destruct (Forall_lookup_1 _ _ _ _ Hbots Hbot) as [_ Hfin].
  destruct (Hpaths i bot Hbot)
    as [(path & target & Hpath & Ht & Hlen & Hlin)
        (gpath & gtarget & curr & Hgpath & Hgt & Hcurr & Hget & Hglin)].
  split.
  - exists path, target. repeat split; try done.
    + by eapply linspace_rows_length.
    + eapply linspace_rows_head; [exact Hn|exact Hlen| | |exact Hlin].
      * by apply Forall_take.
      * exact (Forall_lookup_1 _ _ _ _ Harm Ht).
    + by eapply linspace_rows_last.
  - exists gpath, gtarget, curr. repeat split; try done.
    + by eapply linspace_length.
    + eapply linspace_head; [exact Hn| | |exact Hglin].
      * exact (Forall_lookup_1 _ _ _ _ Hfin Hcurr).
      * exact (Forall_lookup_1 _ _ _ _ Hgrip Hgt).
    + by eapply linspace_last.
Qed.

(** On two robots and three steps. *)
Example trajectory_endpoints_exact_example :
  exists arm_paths gripper_paths,
    arm_traj_list (F:=Exact.t) two_bots two_arm_targets 3 = Returned arm_paths /\
    gripper_traj_list two_bots two_gripper_targets 3 = Returned gripper_paths /\
    forall i bot, two_bots !! i = Some bot ->
      (exists path target,
          arm_paths !! i = Some path /\ two_arm_targets !! i = Some target /\
          length path = Z.to_nat 3 /\
          head path = Some (get_arm_joint_positions bot) /\
          last path = Some target) /\
      (exists path target curr,
          gripper_paths !! i = Some path /\
          two_gripper_targets !! i = Some target /\
          get_arm_gripper_positions bot = Returned curr /\
          length path = Z.to_nat 3 /\
          head path = Some curr /\
          last path = Some target).
Proof.
  apply (trajectory_endpoints_exact two_bots two_arm_targets
           two_gripper_targets 3).
  - lia.
  - reflexivity.
  - repeat constructor.
  - repeat constructor.
  - repeat constructor.
  - repeat constructor.
Qed.




(** ** Playback *)


Lemma arm_traj_list_lengths {F} `{PyFloat F}
      (bot_list : list (InterbotixManipulatorXS F))
      (targets : list (list F)) (num_steps : Z) (trajs : list (list (list F))) :
  arm_traj_list bot_list targets num_steps = Returned trajs ->
  length trajs = Nat.min (length bot_list) (length targets) /\
  Forall (fun traj => length traj = Z.to_nat num_steps) trajs.
Proof.
  unfold arm_traj_list. intros Htrajs. split.
  - rewrite (list_comp_length _ _ _ Htrajs), length_zip_with, length_fmap. done.
  - apply list_comp_inv in Htrajs. apply Forall_lookup. intros i traj Hi.
    destruct (Forall2_lookup_r _ _ _ _ _ Htrajs Hi) as ([c t] & _ & Hlin).
    by eapply linspace_rows_length.
Qed.

Lemma gripper_traj_list_lengths {F} `{PyFloat F}
      (bot_list : list (InterbotixManipulatorXS F))
      (targets : list F) (num_steps : Z) (trajs : list (list F)) :
  gripper_traj_list bot_list targets num_steps = Returned trajs ->
  length trajs = Nat.min (length bot_list) (length targets) /\
  Forall (fun traj => length traj = Z.to_nat num_steps) trajs.
Proof.
  unfold gripper_traj_list.
  destruct (list_comp get_arm_gripper_positions bot_list) as [currs|e] eqn:Hcurrs;
    [|done].
  rewrite bind_Returned. intros Htrajs. split.
  - rewrite (list_comp_length _ _ _ Htrajs), length_zip_with.
    by rewrite (list_comp_length _ _ _ Hcurrs).
  - apply list_comp_inv in Htrajs. apply Forall_lookup. intros i traj Hi.
    destruct (Forall2_lookup_r _ _ _ _ _ Htrajs Hi) as ([c t] & _ & Hlin).
    by eapply linspace_length.
Qed.

(** X1: what [move_arms] dispatches when every arm has a target: at each
    step [t], in increasing order, waypoint [t] of every arm's path, in the
    order of the arms, and then one sleep of [DT]; it returns normally. *)
Lemma move_arms_trace {F} `{PyFloat F} (DT : F)
      (bot_list : list (InterbotixManipulatorXS F))
      (target_pose_list : list (list F)) (move_time : F)
      (num_steps : Z) (traj_list : list (list (list F))) :
  (length bot_list <= length target_pose_list)%nat ->
  num_steps_of DT move_time = Returned num_steps ->
  arm_traj_list bot_list target_pose_list num_steps = Returned traj_list ->
  move_arms DT bot_list target_pose_list move_time
  = (flat_map
       (fun t =>
          zip_with (fun bot w => SetJointPositions (robot_name bot) w)
                   bot_list (column traj_list t)
          ++ [Sleep DT])
       (range num_steps),
     Returned tt).
Proof.
  intros Hlen Hnum Htrajs.
  destruct (arm_traj_list_lengths _ _ _ _ Htrajs) as [Hl Hpaths].
  unfold move_arms. rewrite Hnum, run_bind_Returned, Htrajs, run_bind_Returned.
  apply (playback_trace (fun bot w => SetJointPositions (robot_name bot) w));
    [lia|done].
Qed.

(** X2: what [move_grippers] publishes when every gripper has a target: at
    each step [t], in increasing order, one command named "gripper" that
    carries waypoint [t] of every gripper's path, in the order of the
    grippers, and then one sleep of [DT]; it returns normally. *)
Lemma move_grippers_trace {F} `{PyFloat F} (DT : F)
      (bot_list : list (InterbotixManipulatorXS F))
      (target_pose_list : list F) (move_time : F)
      (num_steps : Z) (traj_list : list (list F)) :
  (length bot_list <= length target_pose_list)%nat ->
  num_steps_of DT move_time = Returned num_steps ->
  gripper_traj_list bot_list target_pose_list num_steps = Returned traj_list ->
  move_grippers DT bot_list target_pose_list move_time
  = (flat_map
       (fun t =>
          zip_with
            (fun bot w =>
               Publish (robot_name bot) {| Msg.name := "gripper"; Msg.cmd := w |})
            bot_list (column traj_list t)
          ++ [Sleep DT])
       (range num_steps),
     Returned tt).
Proof.
  intros Hlen Hnum Htrajs.
  destruct (gripper_traj_list_lengths _ _ _ _ Htrajs) as [Hl Hpaths].
  unfold move_grippers.
  rewrite Hnum, run_bind_Returned, Htrajs, run_bind_Returned.
  apply (playback_trace
           (fun bot w =>
              Publish (robot_name bot) {| Msg.name := "gripper"; Msg.cmd := w |}));
    [lia|done].
Qed.

(** ** Lists of different lengths *)




(** ** Smoothing *)

Section Smoothing.
Context {F : Type} `{PyFloat F}.

Lemma length_convolve_full (a v : list F) :
  length (convolve_full a v) = (length a + length v - 1)%nat.
Proof. unfold convolve_full. by rewrite length_fmap, length_seq. Qed.

(** The result of a same-mode convolution is as long as the longer of
    its two arguments. *)
Lemma convolve_same_length (a v : list F) :
  a <> [] -> v <> [] ->
  exists out, convolve_same a v = Returned out /\
              length out = Nat.max (length a) (length v).
Proof.
  intros Ha Hv.
  assert (length a <> 0%nat) by (by destruct a).
  assert (length v <> 0%nat) by (by destruct v).
  unfold convolve_same.
  destruct (length a <? length v)%nat eqn:Hswap.
  - apply Nat.ltb_lt in Hswap.
    destruct (length v =? 0)%nat eqn:E1; [apply Nat.eqb_eq in E1; lia|].
    destruct (length a =? 0)%nat eqn:E2; [apply Nat.eqb_eq in E2; lia|].
    eexists. split; [done|].
    rewrite length_take, length_drop, length_convolve_full.
    generalize (length a / 2)%nat. intros half. lia.
  - apply Nat.ltb_ge in Hswap.
    destruct (length a =? 0)%nat eqn:E1; [apply Nat.eqb_eq in E1; lia|].
    destruct (length v =? 0)%nat eqn:E2; [apply Nat.eqb_eq in E2; lia|].
    eexists. split; [done|].
    rewrite length_take, length_drop, length_convolve_full.
    generalize (length v / 2)%nat. intros half. lia.
Qed.

End Smoothing.

(** C3 (as the code has it): for a sequence of one base action or more,
    [smooth_base_action] returns a sequence as long as the longer of the
    input and the five-wide kernel: the input's length from five actions
    on, five for one to four actions. *)
Theorem smooth_base_action_length {F} `{PyFloat F} (base_action : list (F * F)) :
  (1 <= length base_action)%nat ->
  exists out, smooth_base_action base_action = Returned out /\
              length out = Nat.max (length base_action) 5 /\
              ((5 <= length base_action)%nat -> length out = length base_action).
Proof.
  intros Hlen. unfold smooth_base_action.
  set (kernel := (fun x => (x / of_int 5)%fl) <$> ones 5).
  assert (Hk : length kernel = 5%nat) by done.
  destruct (convolve_same_length (base_action.*1) kernel)
    as (c0 & -> & Hc0);
    [destruct base_action; [cbn in Hlen; lia|done]|done|].
  destruct (convolve_same_length (base_action.*2) kernel)
    as (c1 & -> & Hc1);
    [destruct base_action; [cbn in Hlen; lia|done]|done|].
  rewrite !bind_Returned. eexists. split; [done|].
  rewrite length_fmap, length_zip_with, Hc0, Hc1, !length_fmap, Hk. lia.
Qed.

(** C3 on six base actions. *)
Lemma smooth_base_action_length_witness :
  exists out,
    smooth_base_action (F:=float)
      [(of_int 1, of_int 0); (of_int 2, of_int 0); (of_int 3, of_int 1);
       (of_int 4, of_int 0); (of_int 5, of_int 0); (of_int 6, of_int 1)]
    = Returned out /\
    length out = Nat.max 6 5 /\
    ((5 <= 6)%nat -> length out = 6%nat).
Proof.
  apply (smooth_base_action_length
           [(of_int 1, of_int 0); (of_int 2, of_int 0); (of_int 3, of_int 1);
            (of_int 4, of_int 0); (of_int 5, of_int 0); (of_int 6, of_int 1)]).
  cbn. lia.
Defined.

(** C3 as stated fails: one base action goes in and five come out. *)
Lemma smooth_base_action_short_input :
  let base_action : list (float * float) := [(of_int 1, of_int 0)] in
  (1 <= length base_action)%nat /\
  exists out, smooth_base_action base_action = Returned out /\
              length out = 5%nat /\ length out <> length base_action.
Proof.
  cbv zeta. split; [cbn; lia|].
  eexists. split; [vm_compute; reflexivity|]. split; [done|cbn; lia].
Qed.

(** ** Diagnostics *)

Lemma for_each_emits {E A} (l : list A) (body : A -> run E unit) (evs : list E) :
  Forall2 (fun x ev => body x = ([ev], Returned tt)) l evs ->
  for_each l body = (evs, Returned tt).
Proof.
  induction 1 as [|x ev l evs Hx _ IH]; cbn; [done|].
  by rewrite Hx, IH.
Qed.

(** In binary64 the rate of a history of fewer than two timestamps is nan:
    the mean of no differences is [0.0 / 0]. *)
Lemma freq_short_history (ts : list float) :
  (length ts < 2)%nat -> dt_helper ts = nan /\ freq ts = nan.
Proof.
  destruct ts as [|x [|y ts]]; cbn [length]; [done|done|lia].
Qed.

(** With every camera's history in place, [print_diagnostics] prints one
    line per camera, then an empty line. *)
Lemma image_print_diagnostics_lines {Mat : Type}
      (self : ImageRecorder.t (F:=float) (Mat:=Mat)) :
  Forall (fun cam =>
            exists d, ImageRecorder.attrs self !! (cam +:+ "_timestamps")
                      = Some (ImageRecorder.ATimestamps d))
         (ImageRecorder.camera_names self) ->
  exists evs,
    Forall2 (fun cam ev =>
               exists d, ImageRecorder.attrs self !! (cam +:+ "_timestamps")
                         = Some (ImageRecorder.ATimestamps d) /\
                         ev = Print [(cam +:+ " image_freq", freq (items d))])
            (ImageRecorder.camera_names self) evs /\
    ImageRecorder.print_diagnostics self = (evs ++ [Print []], Returned tt).
Proof.
  intros Hall. unfold ImageRecorder.print_diagnostics.
  generalize dependent (ImageRecorder.camera_names self). intros cams Hall.
  assert (Hevs : exists evs,
    Forall2 (fun cam ev =>
               exists d, ImageRecorder.attrs self !! (cam +:+ "_timestamps")
                         = Some (ImageRecorder.ATimestamps d) /\
                         ev = Print [(cam +:+ " image_freq", freq (items d))])
            cams evs).
  { induction Hall as [|cam cams [d Hd] _ [evs IH]]; [by exists []|].
    eexists. constructor; [eauto|exact IH]. }
  destruct Hevs as [evs Hevs]. exists evs. split; [done|].
  rewrite (for_each_emits _ _ evs).
  - cbn. done.
  - eapply Forall2_impl; [exact Hevs|]. intros cam ev (d & Hd & ->).
    unfold ImageRecorder.getattr. by rewrite Hd.
Qed.

(** C4 (as the code has it): on a stream whose history holds fewer than
    two timestamps, [print_diagnostics] of either recorder returns normally
    and prints nan as that stream's rate; it raises nothing and gives no
    other sign. *)
Theorem print_diagnostics_short_history {Mat : Type}
    (self : ImageRecorder.t (F:=float) (Mat:=Mat)) (cam_name : string)
    (history : deque float)
    (rec : Recorder.t (F:=float)) (joint arm gripper : deque float) :
  Forall (fun cam =>
            exists d, ImageRecorder.attrs self !! (cam +:+ "_timestamps")
                      = Some (ImageRecorder.ATimestamps d))
         (ImageRecorder.camera_names self) ->
  cam_name ∈ ImageRecorder.camera_names self ->
  ImageRecorder.attrs self !! (cam_name +:+ "_timestamps")
    = Some (ImageRecorder.ATimestamps history) ->
  (length (items history) < 2)%nat ->
  Recorder.joint_timestamps rec = Some joint ->
  Recorder.arm_command_timestamps rec = Some arm ->
  Recorder.gripper_command_timestamps rec = Some gripper ->
  (length (items joint) < 2)%nat ->
  (ImageRecorder.print_diagnostics self).2 = Returned tt /\
  Exists (prints_rate (cam_name +:+ " image_freq") nan)
         (ImageRecorder.print_diagnostics self).1 /\
  Recorder.print_diagnostics rec
  = ([Print [("joint_freq", nan);
             ("arm_command_freq", freq (items arm));
             ("gripper_command_freq", freq (items gripper))]],
     Returned tt).
Proof.
  intros Hall Hcam Hhist Hshort Hjoint Harm Hgripper Hjshort.
  destruct (image_print_diagnostics_lines self Hall) as (evs & Hevs & ->).
  split; [done|]. split.
  - apply list_elem_of_lookup in Hcam as [i Hi].
    destruct (Forall2_lookup_l _ _ _ _ _ Hevs Hi) as (ev & Hev & d & Hd & ->).
    assert (d = history) as -> by congruence.
    apply Exists_exists. eexists. split.
    + apply elem_of_app. left. by eapply list_elem_of_lookup_2.
    + destruct (freq_short_history _ Hshort) as [_ ->]. by left.
  - unfold Recorder.print_diagnostics.
    rewrite Hjoint, Harm, Hgripper. cbn -[freq].
    by destruct (freq_short_history _ Hjshort) as [_ ->].
Qed.

(** C4 on recorders that have received nothing yet. *)
Lemma print_diagnostics_short_history_witness :
  let self := ImageRecorder.init (F:=float) (Mat:=unit) true true in
  let rec := Recorder.init (F:=float) true in
  (ImageRecorder.print_diagnostics self).2 = Returned tt /\
  Exists (prints_rate ("cam_high" +:+ " image_freq") nan)
         (ImageRecorder.print_diagnostics self).1 /\
  Recorder.print_diagnostics rec
  = ([Print [("joint_freq", nan);
             ("arm_command_freq", freq (items (deque_new 50)));
             ("gripper_command_freq", freq (items (deque_new 50)))]],
     Returned tt).
Proof.
  intros self rec.
  apply (print_diagnostics_short_history self "cam_high" (deque_new 50)
           rec (deque_new 50) (deque_new 50) (deque_new 50)).
  - repeat constructor; eexists; vm_compute; reflexivity.
  - vm_compute. left.
  - vm_compute. reflexivity.
  - cbn. lia.
  - reflexivity.
  - reflexivity.
  - reflexivity.
  - cbn. lia.
Defined.

(** C4 as stated fails: freshly constructed recorders in debug mode have
    empty histories; their diagnostics end normally and every rate they
    print is nan. *)
Lemma print_diagnostics_empty_history :
  let self := ImageRecorder.init (F:=float) (Mat:=unit) true true in
  let rec := Recorder.init (F:=float) true in
  ImageRecorder.attrs self !! "cam_high_timestamps"
    = Some (ImageRecorder.ATimestamps (deque_new 50)) /\
  ImageRecorder.print_diagnostics self
  = ([Print [("cam_high image_freq", nan)];
      Print [("cam_left_wrist image_freq", nan)];
      Print [("cam_right_wrist image_freq", nan)];
      Print []],
     Returned tt) /\
  Recorder.print_diagnostics rec
  = ([Print [("joint_freq", nan);
             ("arm_command_freq", nan);
             ("gripper_command_freq", nan)]],
     Returned tt) /\
  PrimFloat.is_nan nan = true.
Proof.
  cbv zeta. repeat split; vm_compute; reflexivity.
Qed.

(** ** numpy: the order of a sum *)

Section PairwiseFuel.
Context {F : Type} `{PyFloat F}.

Lemma pairwise_sum_short (fuel : nat) (a : list F) :
  (length a <= 128)%nat -> pairwise_sum fuel a = pairwise_block a.
Proof.
  intros Hlen%Nat.leb_le. destruct fuel; cbn [pairwise_sum]; by rewrite Hlen.
Qed.

Lemma pairwise_sum_long (fuel : nat) (a : list F) :
  (128 < length a)%nat ->
  pairwise_sum (S fuel) a
  = (pairwise_sum fuel (take (length a / 2 - (length a / 2) mod 8) a)
     + pairwise_sum fuel (drop (length a / 2 - (length a / 2) mod 8) a))%fl.
Proof.
  intros Hlen%Nat.leb_gt. cbn [pairwise_sum]. by rewrite Hlen.
Qed.

(** The halves are shorter than the array: starting from the length of
    the array, [fuel] does not run out, and more of it changes nothing. *)
Lemma pairwise_sum_halves (n : nat) :
  (128 < n)%nat ->
  (0 < n / 2 - (n / 2) mod 8 < n)%nat.
Proof.
  intros Hn.
  pose proof (Nat.div_mod_eq n 2) as Hdiv.
  pose proof (Nat.mod_upper_bound n 2 ltac:(lia)) as Hmod.
  pose proof (Nat.mod_upper_bound (n / 2) 8 ltac:(lia)) as Hmod8.
  lia.
Qed.

Lemma pairwise_sum_fuel (fuel fuel' : nat) (a : list F) :
  (length a <= fuel)%nat -> (length a <= fuel')%nat ->
  pairwise_sum fuel a = pairwise_sum fuel' a.
Proof.
  revert fuel' a. induction fuel as [|fuel IH]; intros fuel' a Hf Hf'.
  - rewrite !pairwise_sum_short by lia. done.
  - destruct (decide (length a <= 128)%nat) as [Hshort|Hlong].
    + by rewrite !pairwise_sum_short.
    + destruct fuel' as [|fuel']; [lia|].
      rewrite !pairwise_sum_long by lia.
      pose proof (pairwise_sum_halves (length a) ltac:(lia)) as Hn2.
      f_equal; apply IH; rewrite ?length_take, ?length_drop; lia.
Qed.

End PairwiseFuel.

(** In an arithmetic whose addition is associative and commutative, with
    [0.0] neutral, the order does not matter: [numpy.sum] is the sum from
    left to right. *)
Section PairwiseOrder.
Context {F : Type} `{PyFloat F}.
Hypothesis fadd_comm : forall x y : F, (x + y)%fl = (y + x)%fl.
Hypothesis fadd_assoc : forall x y z : F, (x + (y + z))%fl = (x + y + z)%fl.
Hypothesis fadd_0_l : forall x : F, (of_int 0 + x)%fl = x.

Lemma foldl_fadd_from (x : F) (l : list F) :
  foldl fadd x l = (x + foldl fadd (of_int 0) l)%fl.
Proof.
  revert x. induction l as [|y l IH]; intros x; cbn [foldl].
  - by rewrite fadd_comm, fadd_0_l.
  - rewrite (IH (x + y)%fl), (IH (of_int 0 + y)%fl), fadd_0_l.
    by rewrite fadd_assoc.
Qed.

Lemma fadd_interchange (a b c d : F) :
  (a + b + (c + d))%fl = (a + c + (b + d))%fl.
Proof.
  rewrite !fadd_assoc. f_equal.
  rewrite <- !fadd_assoc. f_equal. apply fadd_comm.
Qed.

Lemma accumulate8_sum (n : nat) (a : list F) (r : F * F * F * F * F * F * F * F) :
  (length a <= n)%nat ->
  let '(r0, r1, r2, r3, r4, r5, r6, r7) := r in
  let '(s0, s1, s2, s3, s4, s5, s6, s7, tail) := accumulate8 r a in
  foldl fadd (s0 + s1 + (s2 + s3) + (s4 + s5 + (s6 + s7)))%fl tail
  = foldl fadd (r0 + r1 + (r2 + r3) + (r4 + r5 + (r6 + r7)))%fl a.
Proof.
  revert a r. induction n as [|n IH]; intros a r Hlen.
  - destruct a; [|cbn in Hlen; lia]. by destruct r as [[[[[[[r0 r1] r2] r3] r4] r5] r6] r7].
  - destruct r as [[[[[[[r0 r1] r2] r3] r4] r5] r6] r7].
    destruct a as [|a0 [|a1 [|a2 [|a3 [|a4 [|a5 [|a6 [|a7 rest]]]]]]]];
      try done.
    cbn [accumulate8].
    specialize (IH rest
                  ((r0 + a0)%fl, (r1 + a1)%fl, (r2 + a2)%fl, (r3 + a3)%fl,
                   (r4 + a4)%fl, (r5 + a5)%fl, (r6 + a6)%fl, (r7 + a7)%fl)
                  ltac:(cbn in Hlen; lia)).
    cbn beta iota in IH.
    destruct (accumulate8 _ rest) as [[[[[[[[s0 s1] s2] s3] s4] s5] s6] s7] tail].
    rewrite IH. cbn [foldl]. f_equal.
    rewrite (fadd_interchange r0 a0), (fadd_interchange r2 a2),
      (fadd_interchange r4 a4), (fadd_interchange r6 a6).
    rewrite (fadd_interchange (r0 + r1)%fl), (fadd_interchange (r4 + r5)%fl).
    rewrite (fadd_interchange (r0 + r1 + (r2 + r3))%fl).
    by rewrite !fadd_assoc.
Qed.

Lemma pairwise_block_seq (a : list F) : pairwise_block a = seq_sum a.
Proof.
  unfold pairwise_block, seq_sum.
  destruct a as [|a0 [|a1 [|a2 [|a3 [|a4 [|a5 [|a6 [|a7 rest]]]]]]]];
    try done.
  pose proof (accumulate8_sum (length rest) rest
                (a0, a1, a2, a3, a4, a5, a6, a7) ltac:(lia)) as Hsum.
  cbn beta iota in Hsum.
  destruct (accumulate8 _ rest) as [[[[[[[[s0 s1] s2] s3] s4] s5] s6] s7] tail].
  rewrite Hsum. cbn [foldl]. f_equal.
  by rewrite fadd_0_l, !fadd_assoc.
Qed.

Lemma pairwise_sum_seq (fuel : nat) (a : list F) :
  pairwise_sum fuel a = seq_sum a.
Proof.
  revert a. induction fuel as [|fuel IH]; intros a.
  - destruct (decide (length a <= 128)%nat).
    + rewrite pairwise_sum_short by done. apply pairwise_block_seq.
    + cbn [pairwise_sum]. destruct (_ <=? _)%nat; apply pairwise_block_seq.
  - destruct (decide (length a <= 128)%nat).
    + rewrite pairwise_sum_short by done. apply pairwise_block_seq.
    + rewrite pairwise_sum_long by lia. rewrite !IH. unfold seq_sum.
      set (n2 := (length a / 2 - (length a / 2) mod 8)%nat).
      transitivity (foldl fadd (of_int 0) (take n2 a ++ drop n2 a));
        [|by rewrite take_drop].
      by rewrite foldl_app, (foldl_fadd_from (foldl _ _ _)).
Qed.

Lemma np_sum_seq (a : list F) : np_sum a = seq_sum a.
Proof. unfold np_sum. by rewrite pairwise_sum_seq, fadd_0_l. Qed.

End PairwiseOrder.

Section PairwiseExact.
Import Exact.

Lemma np_sum_exact (a : list Exact.t) : np_sum a = seq_sum a.
Proof.
  apply np_sum_seq.
  - intros [x|] [y|]; cbn; try done. f_equal. ring.
  - intros [x|] [y|] [z|]; cbn; try done. f_equal. ring.
  - intros [x|]; cbn; try done. f_equal.
    change (Q2Qc (inject_Z 0)) with 0%Qc. ring.
Qed.

End PairwiseExact.

(** On floats the order shows.  For the twenty stamps [0.02 * i] the sum
    of the nineteen differences is 0.38000000000000006 in numpy's order and
    0.38 from left to right, and the rate is 49.99999999999999, not 50. *)
Example np_sum_order_binary64 :
  let ts : list float :=
    (fun i => (of_int (Z.of_nat i) * dec 2 100)%fl) <$> seq 0 20 in
  let diff := zip_with fsub (drop 1 ts) (take 19 ts) in
  np_sum diff = 0.38000000000000006%float /\
  seq_sum diff = 0.38%float /\
  freq ts = 49.999999999999993%float /\
  (of_int 1 / (seq_sum diff / of_int 19))%fl = 50%float.
Proof. cbv zeta. repeat split; vm_compute; reflexivity. Qed.

(** ** The rate of evenly spaced timestamps *)

Section Rate.
Import Exact.

Lemma Q2Qc_inject_Z_succ (m : nat) :
  Q2Qc (inject_Z (Z.of_nat (S m))) = (Q2Qc (inject_Z (Z.of_nat m)) + 1)%Qc.
Proof.
  apply Q2Qc_eq_iff. cbn -[Z.of_nat inject_Z]. rewrite !Qred_correct.
  rewrite Nat2Z.inj_succ, <- Z.add_1_r, inject_Z_plus. reflexivity.
Qed.

Lemma foldl_add_replicate (m : nat) (a d : Qc) :
  foldl fadd (Fin a) (replicate m (Fin d))
  = Fin (a + Q2Qc (inject_Z (Z.of_nat m)) * d)%Qc.
Proof.
  revert a. induction m as [|m IH]; intros a.
  - cbn. f_equal. change (Q2Qc (inject_Z (Z.of_nat 0))) with 0%Qc. ring.
  - cbn [replicate foldl]. change (Fin a + Fin d)%fl with (Fin (a + d)).
    rewrite IH, Q2Qc_inject_Z_succ. f_equal. ring.
Qed.

(** The mean of [m >= 1] copies of [d] is [d]. *)
Lemma np_mean_replicate (m : nat) (d : Qc) :
  (1 <= m)%nat -> np_mean (replicate m (Fin d)) = Fin d.
Proof.
  intros Hm. unfold np_mean. rewrite np_sum_exact. unfold seq_sum.
  change (of_int 0) with (Fin 0). rewrite foldl_add_replicate, length_replicate.
  cbn. unfold div, of_Z. destruct (decide _) as [Hz|Hz].
  - apply Q2Qc_inject_Z_nonzero in Hz; [done|lia].
  - f_equal. field. exact Hz.
Qed.

(** [ts[1:] - ts[:-1]] for timestamps whose neighbours are [d] apart. *)
Lemma diff_constant (ts : list Exact.t) (d : Qc) :
  (forall i a b, ts !! i = Some a -> ts !! S i = Some b -> (b - a)%fl = Fin d) ->
  zip_with fsub (drop 1 ts) (take (length ts - 1)%nat ts)
  = replicate (length ts - 1)%nat (Fin d).
Proof.
  induction ts as [|a ts IH]; intros Hd; [done|].
  destruct ts as [|b ts]; [done|].
  cbn [length drop]. rewrite Nat.sub_succ, Nat.sub_0_r.
  cbn [length take zip_with replicate]. f_equal.
  - by apply (Hd 0%nat).
  - cbn [length drop] in IH. rewrite Nat.sub_succ, Nat.sub_0_r in IH.
    apply IH. intros i x y Hx Hy. by apply (Hd (S i)).
Qed.

End Rate.

(** C5: for two timestamps or more whose consecutive differences all equal
    a constant [d > 0], the rate estimate (the reciprocal of [dt_helper],
    the mean of the consecutive differences) is [1 / d]; in exact
    arithmetic, which is what "within floating-point tolerance" measures
    against. *)
Theorem freq_constant_spacing (ts : list Exact.t) (d : Qc) :
  (2 <= length ts)%nat ->
  (0 < d)%Qc ->
  (forall i a b, ts !! i = Some a -> ts !! S i = Some b ->
                 (b - a)%fl = Exact.Fin d) ->
  dt_helper ts = Exact.Fin d /\ freq ts = Exact.Fin (1 / d)%Qc.
Proof.
  intros Hlen Hd Hdiff.
  assert (Hdt : dt_helper ts = Exact.Fin d).
  { unfold dt_helper. rewrite (diff_constant ts d) by done.
    apply np_mean_replicate. lia. }
  split; [done|]. unfold freq. rewrite Hdt.
  cbn. unfold Exact.div. destruct (decide _) as [->|_]; [|done].
  vm_compute in Hd. discriminate Hd.
Qed.

(** The timestamps 0.0, 0.1, 0.2, 0.3 on floats: the mean difference is one
    unit in the last place below 0.1 and its reciprocal rounds to 10. *)
Example freq_scenario_binary64 :
  dt_helper [0.0; 0.1; 0.2; 0.3]%float = 0.099999999999999992%float /\
  freq [0.0; 0.1; 0.2; 0.3]%float = 10%float.
Proof. split; reflexivity. Qed.

(** C5 on the timestamps 0, 1/10, 2/10, 3/10. *)
Lemma freq_constant_spacing_witness :
  let ts : list Exact.t := [dec 0 10; dec 1 10; dec 2 10; dec 3 10] in
  dt_helper ts = Exact.Fin (Q2Qc (1 # 10)) /\
  freq ts = Exact.Fin (1 / Q2Qc (1 # 10))%Qc.
Proof.
  intros ts. apply (freq_constant_spacing ts (Q2Qc (1 # 10))).
  - cbn. lia.
  - reflexivity.
  - intros [|[|[|[|i]]]] a b Ha Hb; cbn in Ha, Hb; try discriminate;
      injection Ha as <-; injection Hb as <-;
      (cbn; f_equal; apply Qc_is_canon; reflexivity).
Defined.

(** ** The scenario of the specification *)

(** C6: from [0,0,0,0,0,0] to [6,6,6,6,6,6] in 1.0 s with [DT = 0.02] the
    arm's trajectory has exactly 50 waypoints, and waypoint 25 has
    3.0612244897959182 in every joint (150/49 in exact arithmetic), within
    1/16 of 3. *)
Theorem move_arms_scenario :
  let zeros := [0; 0; 0; 0; 0; 0; 0] in
  let sixes := [6; 6; 6; 6; 6; 6] in
  (num_steps_of (F:=float) (dec 2 100) move_time_default = Returned 50 /\
   exists traj,
     arm_traj_list [robot "follower_left" (of_int (F:=float) <$> zeros)]
                   [of_int <$> sixes] 50 = Returned [traj] /\
     length traj = 50%nat /\
     traj !! 25%nat = Some (replicate 6 3.0612244897959182%float) /\
     (PrimFloat.abs (3.0612244897959182 - 3) <? 0.0625)%float = true) /\
  (num_steps_of (F:=Exact.t) (dec 2 100) move_time_default = Returned 50 /\
   exists traj,
     arm_traj_list [robot "follower_left" (of_int (F:=Exact.t) <$> zeros)]
                   [of_int <$> sixes] 50 = Returned [traj] /\
     length traj = 50%nat /\
     (fmap (M:=list) value <$> traj !! 25%nat) = Some (replicate 6 (Some (150 # 49)%Q)) /\
     ((150 # 49) - 3 == 3 # 49)%Q /\ (3 # 49 < 1 # 16)%Q).
Proof.
  cbv zeta. split; (split; [vm_compute; reflexivity|]).
  - eexists. split; [vm_compute; reflexivity|].
    split; [reflexivity|]. split; vm_compute; reflexivity.
  - eexists. split; [vm_compute; reflexivity|].
    split; [reflexivity|]. split; [vm_compute; reflexivity|].
    split; reflexivity.
Qed.

(** ** Base-action transforms *)

(** In any arithmetic the correction is [v - c * w] on the linear part,
    and no coefficient means the coefficient [0.0]. *)
Lemma calibrate_linear_vel_formula {F} `{PyFloat F} (v w c : F) :
  calibrate_linear_vel (v, w) (Some c) = ((v - c * w)%fl, w) /\
  calibrate_linear_vel (v, w) None = calibrate_linear_vel (v, w) (Some (of_int 0)).
Proof. done. Qed.

(** Without rounding: in exact arithmetic the correction is
    [linear_vel - c * angular_vel], and without a coefficient the action
    comes back as it was. *)
Lemma calibrate_linear_vel_exact (linear_vel angular_vel c : Qc) :
  calibrate_linear_vel (Exact.Fin linear_vel, Exact.Fin angular_vel)
                       (Some (Exact.Fin c))
  = (Exact.Fin (linear_vel - c * angular_vel)%Qc, Exact.Fin angular_vel) /\
  calibrate_linear_vel (Exact.Fin linear_vel, Exact.Fin angular_vel) None
  = (Exact.Fin linear_vel, Exact.Fin angular_vel).
Proof.
  split; [done|]. unfold calibrate_linear_vel. cbn. do 2 f_equal.
  change (Q2Qc (inject_Z 0)) with 0%Qc. ring.
Qed.

(** C7 (as the code has it): velocities are floats.
    [calibrate_linear_vel] maps (linear_vel, angular_vel) to
    (linear_vel - c * angular_vel, angular_vel), computed in binary64.
    Without a coefficient it computes [linear_vel - 0.0 * angular_vel]:
    for finite velocities the action comes back equal under [==], and the
    linear velocity is the very same float unless it is a zero (whose sign
    can change). *)
Theorem calibrate_linear_vel_spec (linear_vel angular_vel c : float) :
  Binary64.finite linear_vel -> Binary64.finite angular_vel ->
  calibrate_linear_vel (linear_vel, angular_vel) (Some c)
  = ((linear_vel - c * angular_vel)%float, angular_vel) /\
  exists v,
    calibrate_linear_vel (linear_vel, angular_vel) None = (v, angular_vel) /\
    (v =? linear_vel)%float = true /\
    (Binary64.regular linear_vel -> v = linear_vel).
Proof.
  intros Hv Hw. split; [done|]. eexists. split; [done|].
  destruct (zero_mul_finite angular_vel Hw) as [s Hs].
  assert (Heq : ((linear_vel - of_int 0 * angular_vel)%fl =? linear_vel)%float
                = true) by (by eapply sub_zero_eqb).
  split; [exact Heq|]. intros Hreg. by apply eqb_regular_eq.
Qed.

(** C7 on the action (0.5, 0.25) and the coefficient 2. *)
Lemma calibrate_linear_vel_spec_witness :
  calibrate_linear_vel (0.5%float, 0.25%float) (Some 2%float)
  = ((0.5 - 2 * 0.25)%float, 0.25%float) /\
  exists v,
    calibrate_linear_vel (0.5%float, 0.25%float) None = (v, 0.25%float) /\
    (v =? 0.5)%float = true /\
    (Binary64.regular 0.5%float -> v = 0.5%float).
Proof.
  apply (calibrate_linear_vel_spec 0.5%float 0.25%float 2%float).
  - reflexivity.
  - reflexivity.
Defined.

(** C7 as stated fails: without a coefficient the function is not the
    identity on every action.  [0.0 * inf] and [0.0 * nan] are nan, so an
    infinite or nan angular velocity turns a linear velocity of 1 into
    nan; and with an angular velocity below zero a linear velocity of
    [-0.0] comes back as [+0.0]. *)
Lemma calibrate_linear_vel_infinite :
  calibrate_linear_vel (1%float, infinity) None = (nan, infinity) /\
  calibrate_linear_vel (1%float, nan) None = (nan, nan) /\
  (nan =? 1)%float = false /\
  calibrate_linear_vel ((- 0)%float, (- 1)%float) None = (0%float, (- 1)%float) /\
  (- 0)%float <> 0%float.
Proof.
  repeat split; try reflexivity.
  intros Heq. apply (f_equal (fun x => (1 / x)%float)) in Heq.
  vm_compute in Heq. discriminate Heq.
Qed.

(** On an example. *)
Example calibrate_linear_vel_example :
  calibrate_linear_vel (0.5%float, 0.25%float) (Some 2%float)
  = (0%float, 0.25%float) /\
  calibrate_linear_vel (0.5%float, 0.25%float) None = (0.5%float, 0.25%float).
Proof. split; reflexivity. Qed.

(** The product by the literal 0.9, whatever the arithmetic. *)
Lemma postprocess_base_action_formula {F} `{PyFloat F} (linear_vel angular_vel : F) :
  postprocess_base_action (linear_vel, angular_vel)
  = (linear_vel, (angular_vel * dec 9 10)%fl).
Proof. done. Qed.

Lemma dec_exact (n d : Z) :
  d <> 0 -> dec (F:=Exact.t) n d = Exact.Fin (Q2Qc (inject_Z n) / Q2Qc (inject_Z d))%Qc.
Proof.
  intros Hd. unfold dec. cbn. unfold Exact.div, Exact.of_Z.
  destruct (decide _) as [Hz|_]; [|done].
  by apply Q2Qc_inject_Z_nonzero in Hz.
Qed.

(** C8: [postprocess_base_action] keeps the linear velocity and multiplies
    the angular velocity by 0.9: exactly nine tenths of it in exact
    arithmetic, the binary64 product with the literal 0.9 on floats, so
    that [1.0, 1.0] becomes [1.0, 0.9]. *)
Theorem postprocess_base_action_spec :
  (forall linear_vel angular_vel : Qc,
      postprocess_base_action (Exact.Fin linear_vel, Exact.Fin angular_vel)
      = (Exact.Fin linear_vel, Exact.Fin (Q2Qc (9 # 10) * angular_vel)%Qc)) /\
  (forall linear_vel angular_vel : float,
      postprocess_base_action (linear_vel, angular_vel)
      = (linear_vel, (angular_vel * 0.9)%float)) /\
  postprocess_base_action (1.0%float, 1.0%float) = (1.0%float, 0.9%float).
Proof.
  split; [|split; reflexivity].
  intros linear_vel angular_vel. rewrite postprocess_base_action_formula.
  rewrite dec_exact by done. cbn. do 2 f_equal.
  assert (Hdec : (Q2Qc (inject_Z 9) / Q2Qc (inject_Z 10))%Qc = Q2Qc (9 # 10))
    by (apply Qc_is_canon; reflexivity).
  rewrite Hdec. ring.
Qed.

(** ** The image callback *)

Lemma deque_append_last {A} (d : deque A) (x : A) (m : nat) :
  maxlen d = Some (S m) -> last (items (deque_append d x)) = Some x.
Proof.
  intros Hmax. unfold deque_append. cbn. rewrite Hmax.
  rewrite drop_app_le by (rewrite length_app; cbn; lia).
  apply last_snoc.
Qed.

Lemma attr_name_ne (cam_name suffix1 suffix2 : string) :
  suffix1 <> suffix2 -> cam_name +:+ suffix1 <> cam_name +:+ suffix2.
Proof. intros Hne Heq. by apply (inj _) in Heq. Qed.

(** C9: with debug history enabled, [image_cb] appends
    [secs + secs * 1e-9] to the camera's history, [secs] being the seconds
    of the message stamp: the nanoseconds are stored in their own
    attribute and play no part in the history. *)
Theorem image_cb_timestamp {F} `{PyFloat F} {Raw Mat : Type}
    (imgmsg_to_cv2 : Raw -> Mat)
    (self : ImageRecorder.t (F:=F) (Mat:=Mat)) (cam_name : string)
    (msg : Msg.Image Raw) (history : deque F) :
  ImageRecorder.is_debug self = true ->
  ImageRecorder.attrs self !! (cam_name +:+ "_timestamps")
    = Some (ImageRecorder.ATimestamps history) ->
  let secs := Msg.secs (Msg.stamp (Msg.header msg)) in
  let appended := (of_int secs + of_int secs * dec 1 (10 ^ 9))%fl in
  exists self',
    ImageRecorder.image_cb imgmsg_to_cv2 self cam_name msg = (self', Returned tt) /\
    ImageRecorder.attrs self' !! (cam_name +:+ "_timestamps")
      = Some (ImageRecorder.ATimestamps (deque_append history appended)) /\
    (forall m, maxlen history = Some (S m) ->
               last (items (deque_append history appended)) = Some appended) /\
    ImageRecorder.attrs self' !! (cam_name +:+ "_nsecs")
      = Some (ImageRecorder.AInt (Msg.nsecs (Msg.stamp (Msg.header msg)))) /\
    forall nsecs' : Z,
      let msg' :=
        {| Msg.header := {| Msg.stamp := {| Msg.secs := secs; Msg.nsecs := nsecs' |} |};
           Msg.data := Msg.data msg |} in
      exists self'',
        ImageRecorder.image_cb imgmsg_to_cv2 self cam_name msg'
        = (self'', Returned tt) /\
        ImageRecorder.attrs self'' !! (cam_name +:+ "_timestamps")
        = ImageRecorder.attrs self' !! (cam_name +:+ "_timestamps").
Proof.
  intros Hdebug Hhist secs appended.
  assert (Hrun : forall msg0 : Msg.Image Raw,
    exists self0,
      ImageRecorder.image_cb imgmsg_to_cv2 self cam_name msg0
      = (self0, Returned tt) /\
      ImageRecorder.attrs self0 !! (cam_name +:+ "_timestamps")
      = Some (ImageRecorder.ATimestamps
                (deque_append history
                   (of_int (Msg.secs (Msg.stamp (Msg.header msg0)))
                    + of_int (Msg.secs (Msg.stamp (Msg.header msg0)))
                      * dec 1 (10 ^ 9))%fl)) /\
      ImageRecorder.attrs self0 !! (cam_name +:+ "_nsecs")
      = Some (ImageRecorder.AInt (Msg.nsecs (Msg.stamp (Msg.header msg0))))).
  { intros msg0. unfold ImageRecorder.image_cb.
    cbn [ImageRecorder.is_debug ImageRecorder.setattr]. rewrite Hdebug.
    unfold ImageRecorder.getattr. cbn [ImageRecorder.attrs ImageRecorder.setattr].
    rewrite !lookup_insert_ne by (by apply attr_name_ne).
    rewrite Hhist. eexists. split; [done|].
    cbn [ImageRecorder.attrs ImageRecorder.setattr]. split.
    - by rewrite lookup_insert_eq.
    - rewrite lookup_insert_ne by (by apply attr_name_ne).
      by rewrite lookup_insert_eq. }
  destruct (Hrun msg) as (self' & Hcb & Hts & Hns).
  exists self'. split; [done|]. split; [done|]. split.
  { intros m Hm. by eapply deque_append_last. }
  split; [done|]. intros nsecs' msg'.
  destruct (Hrun msg') as (self'' & Hcb' & Hts' & _).
  exists self''. split; [done|]. by rewrite Hts, Hts'.
Qed.

(** C9 on a first message for [cam_high], stamped 1700000000 s and
    250000000 ns: the history receives 1700000001.7. *)
Lemma image_cb_timestamp_witness :
  let self := ImageRecorder.init (F:=float) (Mat:=list Z) true true in
  let msg :=
    {| Msg.header :=
         {| Msg.stamp := {| Msg.secs := 1700000000; Msg.nsecs := 250000000 |} |};
       Msg.data := [1; 2; 3] |} in
  exists self',
    ImageRecorder.image_cb (fun raw => raw) self "cam_high" msg
    = (self', Returned tt) /\
    ImageRecorder.attrs self' !! "cam_high_timestamps"
      = Some (ImageRecorder.ATimestamps
                {| maxlen := Some 50%nat; items := [1700000001.7%float] |}).
Proof.
  intros self msg.
  destruct (image_cb_timestamp (fun raw : list Z => raw) self "cam_high" msg
              (deque_new 50))
    as (self' & Hcb & Hts & _).
  - reflexivity.
  - vm_compute. reflexivity.
  - exists self'. split; [exact Hcb|]. exact Hts.
Defined.

(** ** A move shorter than one control period *)

Section NoSteps.
Context {F : Type} `{PyFloat F}.

(** Zero steps: the paths are computed (and are empty), nothing is
    dispatched and the call returns. *)
Lemma playback_no_steps (DT move_time : F)
      (bot_list : list (InterbotixManipulatorXS F))
      (arm_targets : list (list F)) (gripper_targets : list F) :
  num_steps_of DT move_time = Returned 0 ->
  Forall (fun '(curr, target) => length target = length curr)
         (zip (get_arm_joint_positions <$> bot_list) arm_targets) ->
  Forall (fun bot => (6 < length (Msg.position (joint_states bot)))%nat)
         bot_list ->
  move_arms DT bot_list arm_targets move_time = ([], Returned tt) /\
  move_grippers DT bot_list gripper_targets move_time = ([], Returned tt).
Proof.
  intros Hnum Hshape Hjoints. split.
  - unfold move_arms. rewrite Hnum, run_bind_Returned.
    destruct (list_comp_total
                (fun '(curr_pose, target_pose) =>
                   linspace_rows curr_pose target_pose 0)
                (zip (get_arm_joint_positions <$> bot_list) arm_targets))
      as [trajs Htrajs].
    { eapply Forall_impl; [exact Hshape|]. intros [c t] Hlen.
      by apply linspace_rows_returns. }
    unfold arm_traj_list. rewrite Htrajs, run_bind_Returned. done.
  - unfold move_grippers. rewrite Hnum, run_bind_Returned.
    destruct (gripper_traj_list_returns bot_list gripper_targets 0)
      as [trajs Htrajs]; [done|done|].
    rewrite Htrajs, run_bind_Returned. done.
Qed.


End NoSteps.

Section ExactSteps.
Import Exact.



End ExactSteps.





(** The same move on floats: 0.01 s with a period of 0.02 s. *)
Example playback_shorter_than_a_step_binary64 :
  let DT : float := dec 2 100 in
  let move_time : float := dec 1 100 in
  num_steps_of DT move_time = Returned 0 /\
  move_arms DT two_bots two_arm_targets move_time = ([], Returned tt) /\
  move_grippers DT two_bots two_gripper_targets move_time = ([], Returned tt).
Proof.
  cbv zeta.
  assert (Hnum : num_steps_of (F:=float) (dec 2 100) (dec 1 100) = Returned 0)
    by (vm_compute; reflexivity).
  split; [exact Hnum|]. apply playback_no_steps; [exact Hnum| |].
  - repeat constructor.
  - repeat constructor.
Qed.


(** * Further properties *)

(** ** What a playback dispatches *)

Lemma move_arms_trace_witness :
  let DT : float := dec 2 100 in
  exists traj_list,
    arm_traj_list two_bots two_arm_targets 2 = Returned traj_list /\
    move_arms DT two_bots two_arm_targets (dec 4 100)
    = (flat_map
         (fun t =>
            zip_with (fun bot w => SetJointPositions (robot_name bot) w)
                     two_bots (column traj_list t)
            ++ [Sleep DT])
         (range 2),
       Returned tt).
Proof.
  intros DT. eexists. split.
  - vm_compute. reflexivity.
  - apply (move_arms_trace DT two_bots two_arm_targets (dec 4 100) 2).
    + cbn. lia.
    + vm_compute. reflexivity.
    + vm_compute. reflexivity.
Defined.

Lemma move_grippers_trace_witness :
  let DT : float := dec 2 100 in
  exists traj_list,
    gripper_traj_list two_bots two_gripper_targets 2 = Returned traj_list /\
    move_grippers DT two_bots two_gripper_targets (dec 4 100)
    = (flat_map
         (fun t =>
            zip_with
              (fun bot w =>
                 Publish (robot_name bot) {| Msg.name := "gripper"; Msg.cmd := w |})
              two_bots (column traj_list t)
            ++ [Sleep DT])
         (range 2),
       Returned tt).
Proof.
  intros DT. eexists. split.
  - vm_compute. reflexivity.
  - apply (move_grippers_trace DT two_bots two_gripper_targets (dec 4 100) 2).
    + cbn. lia.
    + vm_compute. reflexivity.
    + vm_compute. reflexivity.
Defined.

(** ** Attribute names *)

Lemma list_ascii_of_string_app (s1 s2 : string) :
  Strings.String.list_ascii_of_string (s1 +:+ s2)
  = Strings.String.list_ascii_of_string s1 ++ Strings.String.list_ascii_of_string s2.
Proof.
  induction s1 as [|a s1 IH]; [done|].
  change (a :: Strings.String.list_ascii_of_string (s1 +:+ s2)
          = a :: (Strings.String.list_ascii_of_string s1 ++ Strings.String.list_ascii_of_string s2)).
  by rewrite IH.
Qed.

(** Two cameras have different attributes of one kind. *)
Lemma attr_name_inj (cam1 cam2 suffix : string) :
  cam1 +:+ suffix = cam2 +:+ suffix -> cam1 = cam2.
Proof.
  intros Heq. apply (f_equal Strings.String.list_ascii_of_string) in Heq.
  rewrite !list_ascii_of_string_app in Heq.
  apply app_inj_2 in Heq as [Heq _]; [|done].
  rewrite <- (Strings.String.string_of_list_ascii_of_string cam1),
          <- (Strings.String.string_of_list_ascii_of_string cam2).
  by rewrite Heq.
Qed.

(** Attributes of two kinds differ, whatever the cameras, when the ends of
    the two suffixes differ. *)
Lemma attr_name_suffix_ne (cam1 cam2 suffix1 suffix2 : string) :
  (let r1 := reverse (Strings.String.list_ascii_of_string suffix1) in
   let r2 := reverse (Strings.String.list_ascii_of_string suffix2) in
   take (length r2) r1 <> take (length r1) r2) ->
  cam1 +:+ suffix1 <> cam2 +:+ suffix2.
Proof.
  cbv zeta. intros Hne Heq. apply Hne.
  apply (f_equal Strings.String.list_ascii_of_string) in Heq.
  rewrite !list_ascii_of_string_app in Heq.
  apply (f_equal reverse) in Heq. rewrite !reverse_app in Heq.
  set (r1 := reverse (Strings.String.list_ascii_of_string suffix1)) in *.
  set (r2 := reverse (Strings.String.list_ascii_of_string suffix2)) in *.
  destruct (decide (length r1 <= length r2)%nat) as [Hle|Hgt].
  - apply (f_equal (take (length r1))) in Heq.
    rewrite take_app_length in Heq.
    rewrite take_app_le in Heq by done.
    rewrite <- Heq. by rewrite take_ge.
  - apply (f_equal (take (length r2))) in Heq.
    rewrite take_app_length in Heq.
    rewrite take_app_le in Heq by lia.
    rewrite Heq. rewrite (take_ge r2); [done|lia].
Qed.

Ltac attr_names :=
  first
    [ done
    | apply attr_name_suffix_ne; vm_compute; discriminate
    | match goal with
      | Hne : ?c1 <> ?c2 |- ?c1 +:+ _ <> ?c2 +:+ _ =>
          let Heq := fresh in intros Heq; apply Hne; exact (attr_name_inj _ _ _ Heq)
      | Hne : ?c2 <> ?c1 |- ?c1 +:+ _ <> ?c2 +:+ _ =>
          let Heq := fresh in intros Heq; apply Hne; symmetry; exact (attr_name_inj _ _ _ Heq)
      end ].


(** ** The image recorder after any messages *)

Section ImageFacts.
Context {F : Type} `{PyFloat F} {Raw Mat : Type} (imgmsg_to_cv2 : Raw -> Mat).

Lemma image_cb_fields (self : ImageRecorder.t (F:=F) (Mat:=Mat))
      (cam_name : string) (msg : Msg.Image Raw) :
  ImageRecorder.is_debug (ImageRecorder.image_cb imgmsg_to_cv2 self cam_name msg).1
  = ImageRecorder.is_debug self /\
  ImageRecorder.camera_names (ImageRecorder.image_cb imgmsg_to_cv2 self cam_name msg).1
  = ImageRecorder.camera_names self.
Proof.
  unfold ImageRecorder.image_cb. cbn.
  destruct (ImageRecorder.is_debug self) eqn:Hd; cbn; [|done].
  by destruct (ImageRecorder.getattr _ _) as [[]|].
Qed.

(** The callback writes to four attributes of its camera and to nothing
    else. *)
Lemma image_cb_other (self : ImageRecorder.t (F:=F) (Mat:=Mat))
      (cam_name : string) (msg : Msg.Image Raw) (key : string) :
  key <> cam_name +:+ "_image" -> key <> cam_name +:+ "_secs" ->
  key <> cam_name +:+ "_nsecs" -> key <> cam_name +:+ "_timestamps" ->
  ImageRecorder.attrs (ImageRecorder.image_cb imgmsg_to_cv2 self cam_name msg).1 !! key
  = ImageRecorder.attrs self !! key.
Proof.
  intros Hi Hs Hn Ht. unfold ImageRecorder.image_cb. cbn.
  destruct (ImageRecorder.is_debug self).
  - destruct (ImageRecorder.getattr _ _) as [[]|]; cbn;
      by rewrite ?lookup_insert_ne by done.
  - cbn. by rewrite ?lookup_insert_ne by done.
Qed.

Lemma image_cb_image (self : ImageRecorder.t (F:=F) (Mat:=Mat))
      (cam_name : string) (msg : Msg.Image Raw) :
  ImageRecorder.attrs (ImageRecorder.image_cb imgmsg_to_cv2 self cam_name msg).1
    !! (cam_name +:+ "_image")
  = Some (ImageRecorder.AImage (imgmsg_to_cv2 (Msg.data msg))).
Proof.
  unfold ImageRecorder.image_cb. cbn.
  assert (Hlook : forall v1 v2 v3 (m : gmap string (ImageRecorder.attr (F:=F) (Mat:=Mat))),
    <[cam_name +:+ "_nsecs" := v3]> (<[cam_name +:+ "_secs" := v2]>
      (<[cam_name +:+ "_image" := v1]> m)) !! (cam_name +:+ "_image") = Some v1).
  { intros. rewrite !lookup_insert_ne by attr_names. by rewrite lookup_insert_eq. }
  destruct (ImageRecorder.is_debug self); [|apply Hlook].
  destruct (ImageRecorder.getattr _ _) as [[]|]; cbn; try apply Hlook.
  rewrite lookup_insert_ne by attr_names. apply Hlook.
Qed.

(** Without debug mode no history is created. *)
Lemma image_cb_no_history (self : ImageRecorder.t (F:=F) (Mat:=Mat))
      (cam_name : string) (msg : Msg.Image Raw) (cam : string) :
  ImageRecorder.is_debug self = false ->
  ImageRecorder.attrs (ImageRecorder.image_cb imgmsg_to_cv2 self cam_name msg).1
    !! (cam +:+ "_timestamps")
  = ImageRecorder.attrs self !! (cam +:+ "_timestamps").
Proof.
  intros Hd. unfold ImageRecorder.image_cb. cbn. rewrite Hd. cbn.
  by rewrite !lookup_insert_ne by attr_names.
Qed.

Lemma image_cb_history (self : ImageRecorder.t (F:=F) (Mat:=Mat))
      (cam_name : string) (msg : Msg.Image Raw) (d : deque F) :
  ImageRecorder.is_debug self = true ->
  ImageRecorder.attrs self !! (cam_name +:+ "_timestamps")
    = Some (ImageRecorder.ATimestamps d) ->
  ImageRecorder.attrs (ImageRecorder.image_cb imgmsg_to_cv2 self cam_name msg).1
    !! (cam_name +:+ "_timestamps")
  = Some (ImageRecorder.ATimestamps (deque_append d (stamp_appended msg))).
Proof.
  intros Hd Hhist. unfold ImageRecorder.image_cb, ImageRecorder.getattr. cbn.
  rewrite Hd. rewrite !lookup_insert_ne by attr_names. rewrite Hhist. cbn.
  by rewrite lookup_insert_eq.
Qed.

Lemma image_cb_returns (self : ImageRecorder.t (F:=F) (Mat:=Mat))
      (cam_name : string) (msg : Msg.Image Raw) (d : deque F) :
  ImageRecorder.attrs self !! (cam_name +:+ "_timestamps")
    = Some (ImageRecorder.ATimestamps d) ->
  (ImageRecorder.image_cb imgmsg_to_cv2 self cam_name msg).2 = Returned tt.
Proof.
  intros Hhist. unfold ImageRecorder.image_cb, ImageRecorder.getattr. cbn.
  destruct (ImageRecorder.is_debug self); [|done].
  rewrite !lookup_insert_ne by attr_names. by rewrite Hhist.
Qed.

End ImageFacts.

Lemma deque_append_last_n {A} (m : nat) (l : list A) (x : A) :
  deque_append {| maxlen := Some m; items := last_n m l |} x
  = {| maxlen := Some m; items := last_n m (l ++ [x]) |}.
Proof.
  unfold deque_append, last_n. cbn. f_equal.
  rewrite <- (drop_app_le l [x]) by lia.
  rewrite drop_drop. f_equal.
  rewrite length_drop, !length_app. cbn. lia.
Qed.

Section ImageStates.
Context {F : Type} `{PyFloat F} {Raw Mat : Type} (imgmsg_to_cv2 : Raw -> Mat).

Lemma camera_names_init (is_mobile is_debug : bool) (cam : string) :
  cam ∈ ImageRecorder.camera_names
          (ImageRecorder.init (F:=F) (Mat:=Mat) is_mobile is_debug) ->
  cam = "cam_high" \/ cam = "cam_low" \/ cam = "cam_left_wrist"
  \/ cam = "cam_right_wrist".
Proof.
  destruct is_mobile, is_debug; cbn; rewrite ?elem_of_cons, elem_of_nil; tauto.
Qed.

Lemma init_attrs (is_mobile is_debug : bool) (cam : string) :
  cam ∈ ImageRecorder.camera_names
          (ImageRecorder.init (F:=F) (Mat:=Mat) is_mobile is_debug) ->
  ImageRecorder.attrs (ImageRecorder.init (F:=F) (Mat:=Mat) is_mobile is_debug)
    !! (cam +:+ "_image") = Some ImageRecorder.ANone /\
  (is_debug = true ->
   ImageRecorder.attrs (ImageRecorder.init (F:=F) (Mat:=Mat) is_mobile is_debug)
     !! (cam +:+ "_timestamps")
   = Some (ImageRecorder.ATimestamps (deque_new 50))).
Proof.
  destruct is_mobile, is_debug; cbn -[lookup];
    rewrite ?elem_of_cons, elem_of_nil;
    intros Hcam; (split; [|try done; intros _]);
    decompose [or] Hcam; subst; try done; vm_compute; reflexivity.
Qed.

Lemma init_no_history (is_mobile : bool) (cam : string) :
  ImageRecorder.attrs (ImageRecorder.init (F:=F) (Mat:=Mat) is_mobile false)
    !! (cam +:+ "_timestamps") = None.
Proof.
  destruct is_mobile; cbn -[lookup];
    by rewrite !lookup_insert_ne by attr_names.
Qed.

Lemma callback_func_init (is_mobile is_debug : bool) (cam : string) :
  cam ∈ ImageRecorder.camera_names
          (ImageRecorder.init (F:=F) (Mat:=Mat) is_mobile is_debug) ->
  callback_func imgmsg_to_cv2 cam
  = Some (fun self msg => ImageRecorder.image_cb imgmsg_to_cv2 self cam msg).
Proof.
  intros Hcam. apply camera_names_init in Hcam.
  decompose [or] Hcam; subst; reflexivity.
Qed.

Lemma of_camera_snoc (cam c : string) (msgs : list (string * Msg.Image Raw))
      (msg : Msg.Image Raw) :
  of_camera cam (msgs ++ [(c, msg)])
  = of_camera cam msgs ++ (if decide (c = cam) then [msg] else []).
Proof.
  unfold of_camera. rewrite omap_app. cbn. by destruct (decide (c = cam)).
Qed.

End ImageStates.

Section ImageReceived.
Context {F : Type} `{PyFloat F} {Raw Mat : Type} (imgmsg_to_cv2 : Raw -> Mat).

(** The recorder after any messages: the debug flag and the cameras are
    those of [__init__], every camera holds its latest image and, in debug
    mode, a history of its latest 50 stamps; without debug mode there
    is no history at all. *)
Lemma on_images_state (is_mobile is_debug : bool)
      (msgs : list (string * Msg.Image Raw)) :
  let self0 := ImageRecorder.init (F:=F) (Mat:=Mat) is_mobile is_debug in
  let self := on_images imgmsg_to_cv2 self0 msgs in
  ImageRecorder.is_debug self = is_debug /\
  ImageRecorder.camera_names self = ImageRecorder.camera_names self0 /\
  (forall cam, cam ∈ ImageRecorder.camera_names self0 ->
     ImageRecorder.attrs self !! (cam +:+ "_image")
     = Some (match last (of_camera cam msgs) with
             | Some msg => ImageRecorder.AImage (imgmsg_to_cv2 (Msg.data msg))
             | None => ImageRecorder.ANone
             end) /\
     (is_debug = true ->
      ImageRecorder.attrs self !! (cam +:+ "_timestamps")
      = Some (ImageRecorder.ATimestamps
                {| maxlen := Some 50%nat;
                   items := last_n 50 (stamp_appended <$> of_camera cam msgs) |}))) /\
  (is_debug = false ->
   forall cam, ImageRecorder.attrs self !! (cam +:+ "_timestamps") = None).
Proof.
  cbv zeta. induction msgs as [|[c msg] msgs IH] using rev_ind.
  - cbn. split; [by destruct is_mobile, is_debug|]. split; [done|]. split.
    + intros cam Hcam. by apply init_attrs.
    + intros -> cam. apply init_no_history.
  - destruct IH as (Hdebug & Hnames & Hcams & Hnone).
    unfold on_images in *. rewrite foldl_snoc.
    set (self := foldl _ _ msgs) in *. unfold on_image.
    destruct (decide (c ∈ ImageRecorder.camera_names self)) as [Hc|Hc].
    + rewrite Hnames in Hc.
      rewrite (callback_func_init _ _ _ _ Hc).
      destruct (image_cb_fields imgmsg_to_cv2 self c msg) as [Hd' Hn'].
      split; [congruence|]. split; [congruence|]. split.
      * intros cam Hcam. rewrite of_camera_snoc.
        destruct (Hcams cam Hcam) as [Himage Hhist].
        destruct (decide (c = cam)) as [->|Hne].
        -- split.
           ++ by rewrite last_snoc, image_cb_image.
           ++ intros Hd. rewrite fmap_app. cbn.
              rewrite <- deque_append_last_n.
              apply image_cb_history; [congruence|by apply Hhist].
        -- rewrite app_nil_r.
           rewrite !image_cb_other by attr_names. done.
      * intros Hd cam. rewrite image_cb_no_history by congruence.
        by apply Hnone.
    + split; [done|]. split; [done|]. split; [|done].
      intros cam Hcam. rewrite of_camera_snoc.
      destruct (decide (c = cam)) as [->|Hne]; [by rewrite Hnames in Hc|].
      rewrite app_nil_r. by apply Hcams.
Qed.

End ImageReceived.

Lemma list_comp_fmap {A B} (f : A -> outcome B) (g : A -> B) (l : list A) :
  Forall (fun x => f x = Returned (g x)) l ->
  list_comp f l = Returned (g <$> l).
Proof.
  induction 1 as [|x l Hx _ IH]; [done|].
  cbn [list_comp]. by rewrite Hx, bind_Returned, IH.
Qed.

Section ImageTheorems.
Context {F : Type} `{PyFloat F} {Raw Mat : Type} (imgmsg_to_cv2 : Raw -> Mat).

(** X3: in debug mode, after any messages, the history of a camera holds
    the stamps [image_cb] computed for the camera's latest 50 messages, in
    the order of arrival, and no more than 50; the camera's callback
    returns normally on its next message. *)
Theorem image_history_latest (is_mobile : bool)
    (msgs : list (string * Msg.Image Raw)) (cam : string) :
  cam ∈ ImageRecorder.camera_names
          (ImageRecorder.init (F:=F) (Mat:=Mat) is_mobile true) ->
  exists d,
    ImageRecorder.attrs
      (on_images imgmsg_to_cv2 (ImageRecorder.init is_mobile true) msgs)
      !! (cam +:+ "_timestamps") = Some (ImageRecorder.ATimestamps d) /\
    maxlen d = Some 50%nat /\
    items d = last_n 50 (stamp_appended <$> of_camera cam msgs) /\
    (length (items d) <= 50)%nat /\
    forall msg,
      (ImageRecorder.image_cb imgmsg_to_cv2
         (on_images imgmsg_to_cv2 (ImageRecorder.init is_mobile true) msgs)
         cam msg).2 = Returned tt.
Proof.
  intros Hcam.
  destruct (on_images_state imgmsg_to_cv2 is_mobile true msgs)
    as (_ & _ & Hcams & _).
  destruct (Hcams cam Hcam) as [_ Hhist].
  eexists. split; [by apply Hhist|]. split; [done|]. split; [done|]. split.
  - cbn. unfold last_n. rewrite length_drop. lia.
  - intros msg. eapply image_cb_returns. by apply Hhist.
Qed.

(** X4: after any messages [get_images] returns, for every camera of the
    recorder and in the order of [camera_names], the conversion of the
    camera's latest message, and [None] for a camera that has had no
    message; the cameras are pairwise different, so that the dictionary
    has one entry for each. *)
Theorem get_images_latest (is_mobile is_debug : bool)
    (msgs : list (string * Msg.Image Raw)) :
  ImageRecorder.get_images
    (on_images imgmsg_to_cv2
       (ImageRecorder.init (F:=F) (Mat:=Mat) is_mobile is_debug) msgs)
  = Returned
      ((fun cam =>
          (cam, match last (of_camera cam msgs) with
                | Some msg => ImageRecorder.AImage (imgmsg_to_cv2 (Msg.data msg))
                | None => ImageRecorder.ANone
                end))
       <$> ImageRecorder.camera_names
             (ImageRecorder.init (F:=F) (Mat:=Mat) is_mobile is_debug)) /\
  NoDup (ImageRecorder.camera_names
           (ImageRecorder.init (F:=F) (Mat:=Mat) is_mobile is_debug)).
Proof.
  split; [|destruct is_mobile, is_debug; apply (bool_decide_unpack _); done].
  destruct (on_images_state imgmsg_to_cv2 is_mobile is_debug msgs)
    as (_ & Hnames & Hcams & _).
  unfold ImageRecorder.get_images. rewrite Hnames.
  apply list_comp_fmap, Forall_forall. intros cam Hcam.
  destruct (Hcams cam Hcam) as [Himage _].
  unfold ImageRecorder.getattr. by rewrite Himage.
Qed.

(** X5: after any messages, [print_diagnostics] of a recorder in debug
    mode prints for every camera the rate of the camera's latest 50 stamps,
    then an empty line, and returns; without debug mode it raises
    [AttributeError] before it prints anything. *)
Theorem image_print_diagnostics_received (is_mobile : bool)
    (msgs : list (string * Msg.Image Raw)) :
  ImageRecorder.print_diagnostics
    (on_images imgmsg_to_cv2
       (ImageRecorder.init (F:=F) (Mat:=Mat) is_mobile true) msgs)
  = (((fun cam =>
         Print [(cam +:+ " image_freq",
                 freq (last_n 50 (stamp_appended <$> of_camera cam msgs)))])
      <$> ImageRecorder.camera_names
            (ImageRecorder.init (F:=F) (Mat:=Mat) is_mobile true))
     ++ [Print []],
     Returned tt) /\
  ImageRecorder.print_diagnostics
    (on_images imgmsg_to_cv2
       (ImageRecorder.init (F:=F) (Mat:=Mat) is_mobile false) msgs)
  = ([], Raised AttributeError).
Proof.
  split.
  - destruct (on_images_state imgmsg_to_cv2 is_mobile true msgs)
      as (_ & Hnames & Hcams & _).
    unfold ImageRecorder.print_diagnostics. rewrite Hnames.
    erewrite for_each_emits; [reflexivity|].
    apply Forall2_fmap_r, Forall_Forall2_diag, Forall_forall.
    intros cam Hcam. destruct (Hcams cam Hcam) as [_ Hhist].
    unfold ImageRecorder.getattr. by rewrite Hhist.
  - destruct (on_images_state imgmsg_to_cv2 is_mobile false msgs)
      as (_ & Hnames & _ & Hnone).
    unfold ImageRecorder.print_diagnostics. rewrite Hnames.
    assert (Hcams : exists cam cams,
      ImageRecorder.camera_names
        (ImageRecorder.init (F:=F) (Mat:=Mat) is_mobile false) = cam :: cams)
      by (destruct is_mobile; by eexists _, _).
    destruct Hcams as (cam & cams & ->). cbn [for_each].
    unfold ImageRecorder.getattr. by rewrite (Hnone eq_refl cam).
Qed.

End ImageTheorems.

Lemma image_history_latest_witness :
  let msg (s : Z) : Msg.Image unit :=
    {| Msg.header := {| Msg.stamp := {| Msg.secs := s; Msg.nsecs := 0 |} |};
       Msg.data := tt |} in
  let msgs := [("cam_high", msg 7); ("cam_low", msg 8); ("cam_high", msg 9)] in
  exists d,
    ImageRecorder.attrs
      (on_images (F:=float) (fun raw : unit => raw)
         (ImageRecorder.init true true) msgs)
      !! ("cam_high" +:+ "_timestamps") = Some (ImageRecorder.ATimestamps d) /\
    maxlen d = Some 50%nat /\
    items d = last_n 50 (stamp_appended <$> of_camera "cam_high" msgs) /\
    (length (items d) <= 50)%nat /\
    forall m,
      (ImageRecorder.image_cb (fun raw : unit => raw)
         (on_images (fun raw : unit => raw) (ImageRecorder.init true true) msgs)
         "cam_high" m).2 = Returned tt.
Proof.
  intros msg msgs.
  apply (image_history_latest (F:=float) (fun raw : unit => raw) true msgs
           "cam_high").
  vm_compute. left.
Defined.

(** ** The recorder after any messages *)

Section RecorderReceived.
Context {F : Type} `{PyFloat F}.

Lemma on_messages_state (is_debug : bool) (ms : list (message (F:=F))) :
  let self := on_messages (Recorder.init is_debug) ms in
  let history (nows : list F) :=
    if is_debug
    then Some {| maxlen := Some 50%nat; items := last_n 50 nows |}
    else None in
  self
  = {| Recorder.secs := None; Recorder.nsecs := None;
       Recorder.qpos := Msg.position <$> last (joint_states_of ms).*1;
       Recorder.qvel := Msg.velocity <$> last (joint_states_of ms).*1;
       Recorder.effort := Msg.effort <$> last (joint_states_of ms).*1;
       Recorder.data := last (joint_states_of ms).*1;
       Recorder.arm_command := Msg.cmd_group <$> last (arm_commands_of ms).*1;
       Recorder.gripper_command := Msg.cmd <$> last (gripper_commands_of ms).*1;
       Recorder.is_debug := is_debug;
       Recorder.joint_timestamps := history (joint_states_of ms).*2;
       Recorder.arm_command_timestamps := history (arm_commands_of ms).*2;
       Recorder.gripper_command_timestamps := history (gripper_commands_of ms).*2 |}.
Proof.
  cbv zeta. induction ms as [|m ms IH] using rev_ind.
  - by destruct is_debug.
  - unfold on_messages in *. rewrite foldl_snoc, IH. clear IH.
    unfold joint_states_of, arm_commands_of, gripper_commands_of.
    rewrite !omap_app.
    destruct m as [msg now|msg now|msg now]; cbn [omap option_list app];
      rewrite ?app_nil_r, ?fmap_app; cbn [fmap list_fmap fst snd];
      rewrite ?last_snoc; cbn [on_message].
    + unfold Recorder.follower_state_cb. cbn [Recorder.is_debug Recorder.joint_timestamps].
      destruct is_debug; cbn; by rewrite ?last_snoc, ?deque_append_last_n.
    + unfold Recorder.follower_arm_commands_cb.
      cbn [Recorder.is_debug Recorder.arm_command_timestamps].
      destruct is_debug; cbn; by rewrite ?last_snoc, ?deque_append_last_n.
    + unfold Recorder.follower_gripper_commands_cb.
      cbn [Recorder.is_debug Recorder.gripper_command_timestamps].
      destruct is_debug; cbn; by rewrite ?last_snoc, ?deque_append_last_n.
Qed.

End RecorderReceived.

Section RecorderTheorems.
Context {F : Type} `{PyFloat F}.

(** X6: after any messages a [Recorder] holds the position, velocity and
    effort of the latest joint state, the latest arm command and the latest
    gripper command, each [None] (or missing) while its topic has been
    silent; no callback sets [secs] or [nsecs], which stay [None]. *)
Theorem recorder_latest (is_debug : bool) (ms : list (message (F:=F))) :
  let self := on_messages (Recorder.init is_debug) ms in
  Recorder.qpos self = Msg.position <$> last (joint_states_of ms).*1 /\
  Recorder.qvel self = Msg.velocity <$> last (joint_states_of ms).*1 /\
  Recorder.effort self = Msg.effort <$> last (joint_states_of ms).*1 /\
  Recorder.data self = last (joint_states_of ms).*1 /\
  Recorder.arm_command self = Msg.cmd_group <$> last (arm_commands_of ms).*1 /\
  Recorder.gripper_command self = Msg.cmd <$> last (gripper_commands_of ms).*1 /\
  Recorder.secs self = None /\ Recorder.nsecs self = None.
Proof.
  cbv zeta. by rewrite on_messages_state.
Qed.

(** X7: after any messages, the three histories of a [Recorder] in debug
    mode hold the latest 50 clock readings of their topics, its callbacks
    return normally, and [print_diagnostics] calls [print] once, with the
    three rates of these readings in the order joint, arm command, gripper
    command (the format string puts each on a line of its own and ends
    with an empty line); without debug mode there are no histories and
    [print_diagnostics] raises [AttributeError] before it prints. *)
Theorem recorder_print_diagnostics_received (ms : list (message (F:=F))) :
  (let self := on_messages (Recorder.init true) ms in
   Recorder.joint_timestamps self
   = Some {| maxlen := Some 50%nat;
             items := last_n 50 (joint_states_of ms).*2 |} /\
   Recorder.arm_command_timestamps self
   = Some {| maxlen := Some 50%nat;
             items := last_n 50 (arm_commands_of ms).*2 |} /\
   Recorder.gripper_command_timestamps self
   = Some {| maxlen := Some 50%nat;
             items := last_n 50 (gripper_commands_of ms).*2 |} /\
   (forall msg now, (Recorder.follower_state_cb self msg now).2 = Returned tt) /\
   (forall msg now,
      (Recorder.follower_arm_commands_cb self msg now).2 = Returned tt) /\
   (forall msg now,
      (Recorder.follower_gripper_commands_cb self msg now).2 = Returned tt) /\
   Recorder.print_diagnostics self
   = ([Print [("joint_freq", freq (last_n 50 (joint_states_of ms).*2));
              ("arm_command_freq", freq (last_n 50 (arm_commands_of ms).*2));
              ("gripper_command_freq",
               freq (last_n 50 (gripper_commands_of ms).*2))]],
      Returned tt)) /\
  (let self := on_messages (Recorder.init false) ms in
   Recorder.joint_timestamps self = None /\
   Recorder.arm_command_timestamps self = None /\
   Recorder.gripper_command_timestamps self = None /\
   Recorder.print_diagnostics self = ([], Raised AttributeError)).
Proof.
  cbv zeta. rewrite !on_messages_state. repeat split.
Qed.

End RecorderTheorems.

(** ** Paths are straight lines *)

Section ExactPaths.
Import Exact.

Lemma arange_lookup {F} `{PyFloat F} (num : Z) (t : nat) :
  Z.of_nat t < num -> arange (F:=F) num !! t = Some (of_int (Z.of_nat t)).
Proof.
  intros Ht. unfold arange, range. rewrite list_lookup_fmap.
  rewrite lookup_seq_lt by lia. done.
Qed.

Lemma on_line_last (s e : Qc) (num : Z) (t : nat) :
  2 <= num -> t = Z.to_nat (num - 1) -> on_line s e t num = e.
Proof.
  intros Hn ->. unfold on_line. rewrite Z2Nat.id by lia.
  field. apply Q2Qc_inject_Z_nonzero. lia.
Qed.

(** The two ways in which [linspace] computes a point give the point of
    the line. *)
Lemma on_line_step (s e : Qc) (num : Z) (t : nat) :
  2 <= num ->
  (of_int (Z.of_nat t) * (Fin (e - s) / of_int (num - 1)) + Fin s)%fl
  = Fin (on_line s e t num) /\
  (of_int (Z.of_nat t) / of_int (num - 1) * Fin (e - s) + Fin s)%fl
  = Fin (on_line s e t num).
Proof.
  intros Hn.
  assert (Hdiv : Q2Qc (inject_Z (num - 1)) <> 0%Qc)
    by (apply Q2Qc_inject_Z_nonzero; lia).
  cbn. unfold Exact.div, of_Z.
  destruct (decide _) as [Hz|_]; [done|]. cbn.
  split; f_equal; unfold on_line; by field.
Qed.

Lemma linspace_linear (s e : Qc) (num : Z) (t : nat) (y : list Exact.t) :
  2 <= num -> Z.of_nat t < num ->
  linspace (Fin s) (Fin e) num = Returned y ->
  y !! t = Some (Fin (on_line s e t num)).
Proof.
  intros Hn Ht Hy.
  pose proof (linspace_length _ _ _ _ Hy) as Hlen.
  revert Hy Hlen. unfold linspace.
  destruct (num <? 0) eqn:Hneg; [lia|].
  destruct (1 <? num) eqn:Hone; [|lia].
  destruct (0 <? num - 1) eqn:Hdiv; [|lia].
  intros [= <-] Hlen. rewrite length_set_last in Hlen.
  unfold set_last. rewrite Hlen.
  destruct (decide (t = Z.to_nat (num - 1))) as [Hlast|Hlast].
  - rewrite on_line_last by done. subst t.
    replace (pred (Z.to_nat num)) with (Z.to_nat (num - 1)) by lia.
    apply list_lookup_insert_eq. lia.
  - rewrite list_lookup_insert_ne by lia.
    destruct (on_line_step s e num t Hn) as [Hstep Hzero].
    revert Hstep. cbn.
    destruct (decide _) as [Hz|_].
    { by apply Q2Qc_inject_Z_nonzero in Hz; [|lia]. }
    intros Hstep.
    destruct (is_zero _);
      rewrite !list_lookup_fmap, (arange_lookup (F:=Exact.t)) by done;
      cbn [fmap option_fmap option_map]; f_equal; [exact Hzero|exact Hstep].
Qed.

Lemma on_line_last_row (ss es : list Qc) (num : Z) (t : nat) :
  2 <= num -> t = Z.to_nat (num - 1) -> length es = length ss ->
  zip_with (fun s e => on_line s e t num) ss es = es.
Proof.
  intros Hn Ht. revert es.
  induction ss as [|s ss IH]; intros [|e es] Hlen; try done.
  cbn in Hlen. cbn [zip_with]. rewrite on_line_last, IH by (done || lia). done.
Qed.

Lemma row_on_line (h : Exact.t -> Exact.t) (k : Qc -> Qc -> Qc)
      (ss es : list Qc) :
  (forall s e, (h (Fin (e - s)) + Fin s)%fl = Fin (k s e)) ->
  zip_with fadd (h <$> (Fin <$> zip_with Qcminus es ss)) (Fin <$> ss)
  = Fin <$> zip_with k ss es.
Proof.
  intros Hh. revert es.
  induction ss as [|s ss IH]; intros [|e es]; try done.
  cbn [zip_with fmap list_fmap]. by rewrite Hh, IH.
Qed.

Lemma linspace_rows_linear (ss es : list Qc) (num : Z) (t : nat)
      (y : list (list Exact.t)) :
  2 <= num -> length es = length ss -> Z.of_nat t < num ->
  linspace_rows (Fin <$> ss) (Fin <$> es) num = Returned y ->
  y !! t = Some (Fin <$> zip_with (fun s e => on_line s e t num) ss es).
Proof.
  intros Hn Hk Ht Hy.
  pose proof (linspace_rows_length _ _ _ _ Hy) as Hlen.
  revert Hy Hlen. unfold linspace_rows.
  destruct (num <? 0) eqn:Hneg; [lia|].
  rewrite !length_fmap, Hk, broadcast_shapes_same, bind_Returned.
  replace (broadcast_to (Fin <$> es) (length ss)) with (Fin <$> es)
    by (rewrite <- Hk, <- (length_fmap Fin es); symmetry; apply broadcast_to_same).
  replace (broadcast_to (Fin <$> ss) (length ss)) with (Fin <$> ss)
    by (rewrite <- (length_fmap Fin ss); symmetry; apply broadcast_to_same).
  destruct (1 <? num) eqn:Hone; [|lia].
  destruct (0 <? num - 1) eqn:Hdiv; [|lia].
  rewrite sub_rows.
  intros Hy Hlen. injection Hy as <-. rewrite length_set_last in Hlen.
  unfold set_last. rewrite Hlen.
  destruct (decide (t = Z.to_nat (num - 1))) as [Hlast|Hlast].
  - rewrite on_line_last_row by done. subst t.
    replace (pred (Z.to_nat num)) with (Z.to_nat (num - 1)) by lia.
    apply list_lookup_insert_eq. lia.
  - rewrite list_lookup_insert_ne by lia.
    destruct (existsb _ _);
      rewrite !list_lookup_fmap, (arange_lookup (F:=Exact.t)) by done;
      cbn [fmap option_fmap option_map]; f_equal.
    + exact (row_on_line
               (fun d => (of_int (Z.of_nat t) / of_int (num - 1) * d)%fl)
               (fun s e => on_line s e t num) ss es
               (fun s e => proj2 (on_line_step s e num t Hn))).
    + rewrite <- list_fmap_compose.
      exact (row_on_line
               (fun d => (of_int (Z.of_nat t) * (d / of_int (num - 1)))%fl)
               (fun s e => on_line s e t num) ss es
               (fun s e => proj1 (on_line_step s e num t Hn))).
Qed.

End ExactPaths.

Lemma arm_traj_list_path {F} `{PyFloat F}
      (bot_list : list (InterbotixManipulatorXS F))
      (targets : list (list F)) (num_steps : Z)
      (paths : list (list (list F))) (i : nat)
      (bot : InterbotixManipulatorXS F) (target : list F) :
  arm_traj_list bot_list targets num_steps = Returned paths ->
  bot_list !! i = Some bot -> targets !! i = Some target ->
  exists path,
    paths !! i = Some path /\
    linspace_rows (get_arm_joint_positions bot) target num_steps = Returned path.
Proof.
  unfold arm_traj_list. intros Hpaths Hbot Htarget.
  apply (list_comp_lookup _ _ _ i (get_arm_joint_positions bot, target) Hpaths).
  apply zip_lookup; [|done]. by rewrite list_lookup_fmap, Hbot.
Qed.

Lemma gripper_traj_list_path {F} `{PyFloat F}
      (bot_list : list (InterbotixManipulatorXS F))
      (targets : list F) (num_steps : Z)
      (paths : list (list F)) (i : nat)
      (bot : InterbotixManipulatorXS F) (target : F) :
  gripper_traj_list bot_list targets num_steps = Returned paths ->
  bot_list !! i = Some bot -> targets !! i = Some target ->
  exists curr path,
    Msg.position (joint_states bot) !! 6%nat = Some curr /\
    paths !! i = Some path /\
    linspace curr target num_steps = Returned path.
Proof.
  unfold gripper_traj_list. intros Hpaths Hbot Htarget.
  destruct (list_comp get_arm_gripper_positions bot_list) as [currs|e] eqn:Hcurrs;
    [|done].
  rewrite bind_Returned in Hpaths.
  destruct (list_comp_lookup _ _ _ i bot Hcurrs Hbot) as (curr & Hcurr & Hget).
  destruct (list_comp_lookup _ _ _ i (curr, target) Hpaths)
    as (path & Hpath & Hlin); [by apply zip_lookup|].
  exists curr, path. split; [|done].
  unfold get_arm_gripper_positions, index in Hget.
  destruct (_ !! 6%nat); by simplify_eq.
Qed.

(** X8: in exact arithmetic an arm's path is a straight line in joint
    space: with two steps or more, a finite current position and a finite
    target of the same length, waypoint [t] has, in every joint, the value
    [s + t * (e - s) / (num_steps - 1)] between the joint's current
    value [s] and its target [e]. *)
Theorem arm_path_linear
    (bot_list : list (InterbotixManipulatorXS Exact.t))
    (targets : list (list Exact.t)) (num_steps : Z)
    (paths : list (list (list Exact.t)))
    (i : nat) (bot : InterbotixManipulatorXS Exact.t) (ss es : list Qc)
    (t : nat) :
  2 <= num_steps ->
  arm_traj_list bot_list targets num_steps = Returned paths ->
  bot_list !! i = Some bot ->
  get_arm_joint_positions bot = Exact.Fin <$> ss ->
  targets !! i = Some (Exact.Fin <$> es) ->
  length es = length ss ->
  Z.of_nat t < num_steps ->
  exists path,
    paths !! i = Some path /\
    path !! t
    = Some (Exact.Fin <$> zip_with (fun s e => on_line s e t num_steps) ss es).
Proof.
  intros Hn Hpaths Hbot Hcurr Htarget Hlen Ht.
  destruct (arm_traj_list_path _ _ _ _ _ _ _ Hpaths Hbot Htarget)
    as (path & Hpath & Hlin).
  exists path. split; [done|]. rewrite Hcurr in Hlin.
  by eapply linspace_rows_linear.
Qed.

Lemma arm_path_linear_witness :
  exists path,
    [[Exact.of_Z <$> [0; 0; 0; 0; 0; 0];
      Exact.of_Z <$> [3; 3; 3; 3; 3; 3];
      Exact.of_Z <$> [6; 6; 6; 6; 6; 6]];
     [Exact.of_Z <$> [1; 1; 1; 1; 1; 1];
      [Exact.Fin (Q2Qc (3 # 2)); Exact.of_Z 2; Exact.Fin (Q2Qc (5 # 2));
       Exact.of_Z 3; Exact.Fin (Q2Qc (7 # 2)); Exact.of_Z 4];
      Exact.of_Z <$> [2; 3; 4; 5; 6; 7]]] !! 1%nat = Some path /\
    path !! 1%nat
    = Some (Exact.Fin
              <$> zip_with (fun s e => on_line s e 1 3)
                    (Q2Qc <$> (inject_Z <$> [1; 1; 1; 1; 1; 1]))
                    (Q2Qc <$> (inject_Z <$> [2; 3; 4; 5; 6; 7]))).
Proof.
  apply (arm_path_linear two_bots two_arm_targets 3 _ 1
           (robot "right" (of_int <$> [1; 1; 1; 1; 1; 1; 0]))
           (Q2Qc <$> (inject_Z <$> [1; 1; 1; 1; 1; 1]))
           (Q2Qc <$> (inject_Z <$> [2; 3; 4; 5; 6; 7])) 1).
  - lia.
  - vm_compute. reflexivity.
  - reflexivity.
  - reflexivity.
  - reflexivity.
  - reflexivity.
  - lia.
Defined.

(** X9: in exact arithmetic a gripper's path is a straight line: with two
    steps or more, a finite current position [s] and a finite target [e],
    waypoint [t] is [s + t * (e - s) / (num_steps - 1)]. *)
Theorem gripper_path_linear
    (bot_list : list (InterbotixManipulatorXS Exact.t))
    (targets : list Exact.t) (num_steps : Z)
    (paths : list (list Exact.t))
    (i : nat) (bot : InterbotixManipulatorXS Exact.t) (s e : Qc) (t : nat) :
  2 <= num_steps ->
  gripper_traj_list bot_list targets num_steps = Returned paths ->
  bot_list !! i = Some bot ->
  Msg.position (joint_states bot) !! 6%nat = Some (Exact.Fin s) ->
  targets !! i = Some (Exact.Fin e) ->
  Z.of_nat t < num_steps ->
  exists path,
    paths !! i = Some path /\
    path !! t = Some (Exact.Fin (on_line s e t num_steps)).
Proof.
  intros Hn Hpaths Hbot Hcurr Htarget Ht.
  destruct (gripper_traj_list_path _ _ _ _ _ _ _ Hpaths Hbot Htarget)
    as (curr & path & Hcurr' & Hpath & Hlin).
  assert (curr = Exact.Fin s) as -> by congruence.
  exists path. split; [done|]. by eapply linspace_linear.
Qed.

Lemma gripper_path_linear_witness :
  exists path,
    [[Exact.of_Z 1; Exact.Fin (Q2Qc (1 # 2)); Exact.of_Z 0];
     [Exact.of_Z 0; Exact.Fin (Q2Qc (1 # 2)); Exact.of_Z 1]] !! 0%nat
    = Some path /\
    path !! 1%nat
    = Some (Exact.Fin (on_line (Q2Qc (inject_Z 1)) (Q2Qc (inject_Z 0)) 1 3)).
Proof.
  apply (gripper_path_linear two_bots two_gripper_targets 3 _ 0
           (robot "left" (of_int <$> [0; 0; 0; 0; 0; 0; 1]))
           (Q2Qc (inject_Z 1)) (Q2Qc (inject_Z 0)) 1).
  - lia.
  - vm_compute. reflexivity.
  - reflexivity.
  - reflexivity.
  - reflexivity.
  - lia.
Defined.

(** ** A move of one step *)

Section OneStep.
Import Exact.

Lemma linspace_one (s e : Qc) : linspace (Fin s) (Fin e) 1 = Returned [Fin s].
Proof.
  unfold linspace.
  change (1 <? 0) with false. change (0 <? 1 - 1) with false.
  change (1 <? 1) with false. change (arange 1) with [of_int (F:=Exact.t) 0].
  cbn. do 3 f_equal. change (Q2Qc (inject_Z 0)) with 0%Qc. ring.
Qed.

Lemma linspace_rows_one (ss es : list Qc) :
  length es = length ss ->
  linspace_rows (Fin <$> ss) (Fin <$> es) 1 = Returned [Fin <$> ss].
Proof.
  intros Hk. unfold linspace_rows.
  change (1 <? 0) with false. cbv iota.
  rewrite !length_fmap, Hk, broadcast_shapes_same, bind_Returned.
  replace (broadcast_to (Fin <$> es) (length ss)) with (Fin <$> es)
    by (rewrite <- Hk, <- (length_fmap Fin es); symmetry; apply broadcast_to_same).
  replace (broadcast_to (Fin <$> ss) (length ss)) with (Fin <$> ss)
    by (rewrite <- (length_fmap Fin ss); symmetry; apply broadcast_to_same).
  rewrite sub_rows. change (0 <? 1 - 1) with false.
  change (1 <? 1) with false. change (arange 1) with [of_int (F:=Exact.t) 0].
  cbn [fmap list_fmap]. do 2 f_equal.
  apply zero_row_add.
  - intros q s. apply zero_step_add.
  - rewrite length_zip_with. lia.
Qed.

End OneStep.

Lemma column_singletons {A B} (f : A -> B) (l : list A) :
  column ((fun x => [f x]) <$> l) 0 = f <$> l.
Proof.
  unfold column. induction l as [|x l IH]; [done|].
  cbn [fmap list_fmap flat_map]. cbn. f_equal. exact IH.
Qed.

Lemma zip_with_own {A B C} (g : A -> B -> C) (f : A -> B) (l : list A) :
  zip_with g l (f <$> l) = (fun x => g x (f x)) <$> l.
Proof. induction l as [|x l IH]; [done|]. cbn. by rewrite IH. Qed.

(** One step of a playback whose paths are the single points [f bot]. *)
Lemma playback_one_step {F W}
      (mk : InterbotixManipulatorXS F -> W -> event F) (pause : event F)
      (bots : list (InterbotixManipulatorXS F))
      (f : InterbotixManipulatorXS F -> W) :
  for_each (range 1)
    (fun t =>
       for_each (enumerate bots)
         (fun '(bot_id, bot) =>
            traj ← lift (index ((fun bot => [f bot]) <$> bots) bot_id);
            waypoint ← lift (index traj t);
            emit (mk bot waypoint));;
       emit pause)
  = (((fun bot => mk bot (f bot)) <$> bots) ++ [pause], Returned tt).
Proof.
  rewrite (playback_trace mk pause bots).
  - change (range 1) with [0%nat]. cbn [flat_map].
    by rewrite app_nil_r, column_singletons, zip_with_own.
  - by rewrite length_fmap.
  - apply Forall_fmap, Forall_forall. done.
Qed.

Section OneStepMove.
Import Exact.

(** X10: a move of exactly one step goes nowhere.  In exact arithmetic,
    with finite positions and targets of matching shapes, [move_arms]
    commands every arm its current joint positions and [move_grippers]
    every gripper its current position, each followed by one sleep of
    [DT]: the targets are not sent. *)
Theorem one_step_keeps_position (DT move_time : Exact.t)
    (bot_list : list (InterbotixManipulatorXS Exact.t))
    (arm_targets : list (list Exact.t)) (gripper_targets : list Exact.t) :
  num_steps_of DT move_time = Returned 1 ->
  Forall2 (fun bot target =>
             Forall finite (get_arm_joint_positions bot) /\
             Forall finite target /\
             length target = length (get_arm_joint_positions bot))
          bot_list arm_targets ->
  Forall2 (fun bot target =>
             (exists s, Msg.position (joint_states bot) !! 6%nat = Some (Fin s)) /\
             finite target)
          bot_list gripper_targets ->
  move_arms DT bot_list arm_targets move_time
  = (((fun bot =>
         SetJointPositions (robot_name bot) (get_arm_joint_positions bot))
      <$> bot_list) ++ [Sleep DT],
     Returned tt) /\
  exists currs,
    Forall2 (fun bot curr => Msg.position (joint_states bot) !! 6%nat = Some curr)
            bot_list currs /\
    move_grippers DT bot_list gripper_targets move_time
    = (zip_with
         (fun bot curr =>
            Publish (robot_name bot) {| Msg.name := "gripper"; Msg.cmd := curr |})
         bot_list currs ++ [Sleep DT],
       Returned tt).
Proof.
  intros Hnum Harms Hgrippers. split.
  - assert (Htrajs : arm_traj_list bot_list arm_targets 1
                     = Returned ((fun bot => [get_arm_joint_positions bot])
                                 <$> bot_list)).
    { unfold arm_traj_list. clear Hgrippers Hnum.
      induction Harms as [|bot target bots targets (Hs & He & Hlen) _ IH];
        [done|].
      cbn [fmap list_fmap zip_with list_comp].
      apply Forall_finite_inv in Hs as [ss Hss].
      apply Forall_finite_inv in He as [es ->].
      rewrite Hss in Hlen |- *. rewrite !length_fmap in Hlen.
      rewrite linspace_rows_one, bind_Returned by done.
      by rewrite IH. }
    unfold move_arms. rewrite Hnum, run_bind_Returned, Htrajs, run_bind_Returned.
    apply (playback_one_step
             (fun bot w => SetJointPositions (robot_name bot) w)).
  - assert (Hcurrs : exists qs,
      Forall2 (fun bot q => Msg.position (joint_states bot) !! 6%nat = Some (Fin q))
              bot_list qs).
    { clear Hnum Harms.
      induction Hgrippers as [|bot target bots targets [[s Hs] _] _ [qs IH]];
        [by exists []|].
      exists (s :: qs). by constructor. }
    destruct Hcurrs as [qs Hqs]. exists (Fin <$> qs). split.
    { apply Forall2_fmap_r. exact Hqs. }
    assert (Hget : list_comp get_arm_gripper_positions bot_list
                   = Returned (Fin <$> qs)).
    { clear - Hqs. induction Hqs as [|bot q bots qs Hq _ IH]; [done|].
      cbn [list_comp fmap list_fmap].
      assert (get_arm_gripper_positions bot = Returned (Fin q)) as ->
        by (unfold get_arm_gripper_positions, index; by rewrite Hq).
      by rewrite bind_Returned, IH. }
    assert (Htrajs : gripper_traj_list bot_list gripper_targets 1
                     = Returned ((fun curr => [curr]) <$> (Fin <$> qs))).
    { unfold gripper_traj_list. rewrite Hget, bind_Returned. clear Hget Hnum Harms.
      revert qs Hqs.
      induction Hgrippers as [|bot target bots targets [_ He] _ IH];
        intros qs Hqs; inversion Hqs as [|? q ? qs' _ Hqs']; subst; [done|].
      apply finite_inv in He as [e ->].
      cbn [fmap list_fmap zip_with list_comp].
      rewrite linspace_one, bind_Returned.
      by rewrite (IH qs'). }
    unfold move_grippers.
    rewrite Hnum, run_bind_Returned, Htrajs, run_bind_Returned.
    rewrite (playback_trace
               (fun bot w =>
                  Publish (robot_name bot) {| Msg.name := "gripper"; Msg.cmd := w |})).
    + change (range 1) with [0%nat]. cbn [flat_map].
      by rewrite app_nil_r, column_singletons, list_fmap_id.
    + rewrite !length_fmap. symmetry. by eapply Forall2_length.
    + apply Forall_fmap, Forall_forall. done.
Qed.

End OneStepMove.

Lemma one_step_keeps_position_witness :
  let DT : Exact.t := dec 2 100 in
  let move_time : Exact.t := dec 3 100 in
  move_arms DT two_bots two_arm_targets move_time
  = (((fun bot =>
         SetJointPositions (robot_name bot) (get_arm_joint_positions bot))
      <$> two_bots) ++ [Sleep DT],
     Returned tt) /\
  exists currs,
    Forall2 (fun bot curr => Msg.position (joint_states bot) !! 6%nat = Some curr)
            two_bots currs /\
    move_grippers DT two_bots two_gripper_targets move_time
    = (zip_with
         (fun bot curr =>
            Publish (robot_name bot) {| Msg.name := "gripper"; Msg.cmd := curr |})
         two_bots currs ++ [Sleep DT],
       Returned tt).
Proof.
  intros DT move_time.
  apply (one_step_keeps_position DT move_time two_bots two_arm_targets
           two_gripper_targets).
  - vm_compute. reflexivity.
  - repeat constructor.
  - repeat constructor; by eexists.
Defined.

(** ** Failures before the first command *)

Lemma list_comp_raises {A B} (f : A -> outcome B) (l : list A) (e : exn)
      (i : nat) (x : A) :
  (forall x' e', f x' = Raised e' -> e' = e) ->
  l !! i = Some x -> f x = Raised e -> list_comp f l = Raised e.
Proof.
  intros Honly. revert i.
  induction l as [|a l IH]; intros [|i] Hi Hx; try done; cbn [list_comp].
  - injection Hi as ->. by rewrite Hx.
  - destruct (f a) as [y|e'] eqn:Ha.
    + rewrite bind_Returned, (IH i) by done. done.
    + by rewrite (Honly a e' Ha).
Qed.

Section PlaybackFailures.
Context {F : Type} `{PyFloat F}.

Lemma linspace_rows_raises (start stop : list F) (num : Z) (e : exn) :
  linspace_rows start stop num = Raised e -> e = ValueError.
Proof.
  unfold linspace_rows, broadcast_shapes.
  destruct (num <? 0); [by intros [= <-]|].
  repeat (destruct (_ =? _)%nat; [by rewrite bind_Returned|]).
  intros Hr. injection Hr as <-. done.
Qed.

Lemma linspace_raises (start stop : F) (num : Z) (e : exn) :
  linspace start stop num = Raised e -> e = ValueError.
Proof. unfold linspace. destruct (num <? 0); [by intros [= <-]|done]. Qed.

Lemma linspace_rows_mismatch (start stop : list F) (num : Z) :
  length stop <> length start -> length stop <> 1%nat ->
  length start <> 1%nat ->
  linspace_rows start stop num = Raised ValueError.
Proof.
  intros Hne Hstop Hstart. unfold linspace_rows, broadcast_shapes.
  destruct (num <? 0); [done|].
  destruct (Nat.eqb_spec (length stop) (length start)); [done|].
  destruct (Nat.eqb_spec (length stop) 1); [done|].
  destruct (Nat.eqb_spec (length start) 1); done.
Qed.

Lemma linspace_negative (start stop : F) (num : Z) :
  num < 0 -> linspace start stop num = Raised ValueError.
Proof. intros Hneg%Z.ltb_lt. unfold linspace. by rewrite Hneg. Qed.

Lemma linspace_rows_negative (start stop : list F) (num : Z) :
  num < 0 -> linspace_rows start stop num = Raised ValueError.
Proof. intros Hneg%Z.ltb_lt. unfold linspace_rows. by rewrite Hneg. Qed.

(** X11: a target pose whose length is neither that of the arm's joint
    positions nor 1 (and the arm does not report one joint only) makes
    [move_arms] raise [ValueError] before any command is dispatched,
    whichever arm of the list it is meant for. *)
Theorem move_arms_shape_mismatch (DT : F)
    (bot_list : list (InterbotixManipulatorXS F))
    (target_pose_list : list (list F)) (move_time : F) (num_steps : Z)
    (i : nat) (bot : InterbotixManipulatorXS F) (target : list F) :
  num_steps_of DT move_time = Returned num_steps ->
  bot_list !! i = Some bot -> target_pose_list !! i = Some target ->
  length target <> length (get_arm_joint_positions bot) ->
  length target <> 1%nat ->
  length (get_arm_joint_positions bot) <> 1%nat ->
  move_arms DT bot_list target_pose_list move_time = ([], Raised ValueError).
Proof.
  intros Hnum Hbot Htarget Hne Ht Hc.
  unfold move_arms. rewrite Hnum, run_bind_Returned.
  assert (arm_traj_list bot_list target_pose_list num_steps = Raised ValueError)
    as ->; [|done].
  unfold arm_traj_list.
  apply (list_comp_raises _ _ _ i (get_arm_joint_positions bot, target)).
  - intros [c t] e. apply linspace_rows_raises.
  - apply zip_lookup; [|done]. by rewrite list_lookup_fmap, Hbot.
  - by apply linspace_rows_mismatch.
Qed.

(** X12: a robot that reports fewer than seven joint positions makes
    [move_grippers] raise [IndexError] before any command is published,
    wherever it stands in the list and whether it has a target or not. *)
Theorem move_grippers_joint_missing (DT : F)
    (bot_list : list (InterbotixManipulatorXS F))
    (target_pose_list : list F) (move_time : F) (num_steps : Z)
    (i : nat) (bot : InterbotixManipulatorXS F) :
  num_steps_of DT move_time = Returned num_steps ->
  bot_list !! i = Some bot ->
  (length (Msg.position (joint_states bot)) <= 6)%nat ->
  move_grippers DT bot_list target_pose_list move_time = ([], Raised IndexError).
Proof.
  intros Hnum Hbot Hshort.
  unfold move_grippers. rewrite Hnum, run_bind_Returned.
  assert (gripper_traj_list bot_list target_pose_list num_steps
          = Raised IndexError) as ->; [|done].
  unfold gripper_traj_list.
  assert (list_comp get_arm_gripper_positions bot_list = Raised IndexError)
    as ->; [|done].
  apply (list_comp_raises _ _ _ i bot); [|done|].
  - intros bot' e. unfold get_arm_gripper_positions, index.
    destruct (Msg.position (joint_states bot') !! 6%nat);
      [done|by intros [= <-]].
  - unfold get_arm_gripper_positions, index.
    by rewrite lookup_ge_None_2.
Qed.

(** X13: a negative number of steps (a negative [move_time]) makes both
    playbacks raise [ValueError] before any command is dispatched, as soon
    as there is one actuator with a target. *)
Theorem move_negative_duration (DT : F)
    (bot : InterbotixManipulatorXS F) (bots : list (InterbotixManipulatorXS F))
    (arm_target : list F) (arm_targets : list (list F))
    (gripper_target : F) (gripper_targets : list F)
    (move_time : F) (num_steps : Z) :
  num_steps_of DT move_time = Returned num_steps ->
  num_steps < 0 ->
  move_arms DT (bot :: bots) (arm_target :: arm_targets) move_time
  = ([], Raised ValueError) /\
  (Forall (fun bot => (6 < length (Msg.position (joint_states bot)))%nat)
          (bot :: bots) ->
   move_grippers DT (bot :: bots) (gripper_target :: gripper_targets) move_time
   = ([], Raised ValueError)).
Proof.
  intros Hnum Hneg. split.
  - unfold move_arms. rewrite Hnum, run_bind_Returned.
    unfold arm_traj_list. cbn [fmap list_fmap zip_with list_comp].
    by rewrite linspace_rows_negative.
  - intros Hjoints. unfold move_grippers. rewrite Hnum, run_bind_Returned.
    unfold gripper_traj_list.
    destruct (list_comp_total get_arm_gripper_positions (bot :: bots))
      as [currs Hcurrs].
    { eapply Forall_impl; [exact Hjoints|]. intros b Hb. cbn in Hb.
      unfold get_arm_gripper_positions, index.
      destruct (lookup_lt_is_Some_2 _ _ Hb) as [x ->]. by eexists. }
    rewrite Hcurrs, bind_Returned.
    pose proof (list_comp_length _ _ _ Hcurrs) as Hlen.
    destruct currs as [|curr currs]; [done|].
    cbn [zip_with list_comp]. by rewrite linspace_negative.
Qed.

End PlaybackFailures.

Lemma move_arms_shape_mismatch_witness :
  move_arms (F:=float) (dec 2 100) two_bots
    [of_int <$> [6; 6; 6; 6; 6; 6]; of_int <$> [2; 3; 4]] (of_int 1)
  = ([], Raised ValueError).
Proof.
  apply (move_arms_shape_mismatch (F:=float) (dec 2 100) two_bots
           [of_int <$> [6; 6; 6; 6; 6; 6]; of_int <$> [2; 3; 4]] (of_int 1) 50
           1 (robot "right" (of_int <$> [1; 1; 1; 1; 1; 1; 0]))
           (of_int <$> [2; 3; 4])).
  - vm_compute. reflexivity.
  - reflexivity.
  - reflexivity.
  - cbn. lia.
  - cbn. lia.
  - cbn. lia.
Defined.

Lemma move_grippers_joint_missing_witness :
  move_grippers (F:=float) (dec 2 100)
    [robot "left" (of_int <$> [0; 0; 0; 0; 0; 0; 1]);
     robot "right" (of_int <$> [1; 1; 1; 1; 1; 1])]
    [of_int 0] (of_int 1)
  = ([], Raised IndexError).
Proof.
  apply (move_grippers_joint_missing (F:=float) (dec 2 100)
           [robot "left" (of_int <$> [0; 0; 0; 0; 0; 0; 1]);
            robot "right" (of_int <$> [1; 1; 1; 1; 1; 1])]
           [of_int 0] (of_int 1) 50 1
           (robot "right" (of_int <$> [1; 1; 1; 1; 1; 1]))).
  - vm_compute. reflexivity.
  - reflexivity.
  - cbn. lia.
Defined.

Lemma move_negative_duration_witness :
  let DT : float := dec 2 100 in
  let move_time : float := of_int (-1) in
  move_arms DT two_bots two_arm_targets move_time = ([], Raised ValueError) /\
  move_grippers DT two_bots two_gripper_targets move_time
  = ([], Raised ValueError).
Proof.
  intros DT move_time.
  destruct (move_negative_duration DT
              (robot "left" (of_int <$> [0; 0; 0; 0; 0; 0; 1]))
              [robot "right" (of_int <$> [1; 1; 1; 1; 1; 1; 0])]
              (of_int <$> [6; 6; 6; 6; 6; 6]) [of_int <$> [2; 3; 4; 5; 6; 7]]
              (of_int 0) [of_int 1] move_time (-50))
    as [Harms Hgrippers].
  - vm_compute. reflexivity.
  - lia.
  - split; [exact Harms|]. apply Hgrippers. repeat constructor.
Defined.

(** ** What smoothing computes *)

Lemma flat_map_fmap {A B C} (f : B -> list C) (g : A -> B) (l : list A) :
  flat_map f (g <$> l) = flat_map (fun x => f (g x)) l.
Proof. induction l as [|x l IH]; [done|]. cbn. by rewrite IH. Qed.

Lemma flat_map_nil {A B} (f : A -> list B) (l : list A) :
  (forall x, f x = []) -> flat_map f l = [].
Proof. intros Hf. induction l as [|x l IH]; [done|]. cbn. by rewrite Hf, IH. Qed.

Section SmoothingWindow.
Context {F : Type} `{PyFloat F}.

(** The products that make element [k] of the full convolution of [a] with
    five copies of [c]: those of the elements [k - 4] to [k] of [a]. *)
Lemma convolve_terms (c : F) (a : list F) (k : nat) :
  flat_map
    (fun i =>
       match a !! i,
             (if (i <=? k)%nat then replicate 5 c !! (k - i)%nat else None) with
       | Some ai, Some vj => [(ai * vj)%fl]
       | _, _ => []
       end)
    (seq 0 (length a))
  = (fun x => (x * c)%fl) <$> take (k + 1 - (k - 4))%nat (drop (k - 4)%nat a).
Proof.
  revert k. induction a as [|x a IH]; intros k.
  - cbn. by rewrite drop_nil, take_nil.
  - cbn [length seq flat_map]. rewrite <- fmap_S_seq, flat_map_fmap.
    destruct k as [|k].
    + rewrite flat_map_nil by (intros i; cbn; by destruct (a !! i)). done.
    + erewrite flat_map_ext; [rewrite (IH k)|intros i; cbn; reflexivity].
      change ((x :: a) !! 0%nat) with (Some x). cbn [Nat.leb].
      destruct k as [|[|[|[|k]]]]; try done.
      assert (replicate 5 c !! (S (S (S (S (S k)))) - 0)%nat = None) as ->
        by (apply lookup_replicate_None; lia).
      replace (S (S (S (S (S k)))) + 1 - (S (S (S (S (S k)))) - 4))%nat
        with 5%nat by lia.
      replace (S (S (S (S k))) + 1 - (S (S (S (S k))) - 4))%nat
        with 5%nat by lia.
      replace (S (S (S (S (S k)))) - 4)%nat with (S k) by lia.
      replace (S (S (S (S k))) - 4)%nat with k by lia.
      done.
Qed.

Lemma convolve_same_window (c : F) (a : list F) (j : nat) :
  (5 <= length a)%nat -> (j < length a)%nat ->
  exists out,
    convolve_same a (replicate 5 c) = Returned out /\
    out !! j = Some (seq_sum ((fun x => (x * c)%fl) <$> window a j)).
Proof.
  intros Hlen Hj. unfold convolve_same. rewrite length_replicate.
  destruct (Nat.ltb_spec (length a) 5); [lia|].
  destruct (Nat.eqb_spec (length a) 0); [lia|]. cbn [Nat.eqb].
  eexists. split; [reflexivity|].
  change (5 - 1 - 5 / 2)%nat with 2%nat.
  rewrite lookup_take_lt by done. rewrite lookup_drop.
  unfold convolve_full. rewrite list_lookup_fmap, length_replicate.
  rewrite lookup_seq_lt by lia. cbn [fmap option_fmap option_map Nat.add].
  f_equal. unfold convolve_at. rewrite convolve_terms. unfold window.
  change (5 - 1 - 5 / 2)%nat with 2%nat.
  replace (2 + j + 1 - (2 + j - 4))%nat with (j + 3 - (j - 2))%nat by lia.
  replace (2 + j - 4)%nat with (j - 2)%nat by lia. done.
Qed.

End SmoothingWindow.

(** X14: for five base actions or more, row [j] of the smoothed sequence
    is, in each of the two components separately, the sum of the rows
    [j - 2] to [j + 2] that exist, each multiplied by [1/5], rounded to
    float32: a five-wide window centred on [j], cut at both ends of the
    sequence. *)
Theorem smooth_base_action_window {F} `{PyFloat F}
    (base_action : list (F * F)) (j : nat) :
  (5 <= length base_action)%nat -> (j < length base_action)%nat ->
  exists out,
    smooth_base_action base_action = Returned out /\
    out !! j
    = Some (to_f32 (seq_sum ((fun x => (x * dec 1 5)%fl)
                            <$> window (base_action.*1) j)),
            to_f32 (seq_sum ((fun x => (x * dec 1 5)%fl)
                            <$> window (base_action.*2) j))).
Proof.
  intros Hlen Hj. unfold smooth_base_action.
  change ((fun x => (x / of_int 5)%fl) <$> ones 5)
    with (replicate 5 (dec (F:=F) 1 5)).
  destruct (convolve_same_window (dec 1 5) (base_action.*1) j)
    as (c0 & Hc0 & Hj0); [by rewrite length_fmap..|].
  destruct (convolve_same_window (dec 1 5) (base_action.*2) j)
    as (c1 & Hc1 & Hj1); [by rewrite length_fmap..|].
  rewrite Hc0, Hc1, !bind_Returned. eexists. split; [reflexivity|].
  rewrite list_lookup_fmap, (zip_lookup _ _ _ _ _ Hj0 Hj1). done.
Qed.

Lemma smooth_base_action_window_witness :
  let base_action : list (float * float) :=
    [(of_int 1, of_int 0); (of_int 2, of_int 0); (of_int 3, of_int 1);
     (of_int 4, of_int 0); (of_int 5, of_int 0); (of_int 6, of_int 1)] in
  exists out,
    smooth_base_action base_action = Returned out /\
    out !! 1%nat
    = Some (to_f32 (seq_sum ((fun x => (x * dec 1 5)%fl)
                            <$> window (base_action.*1) 1)),
            to_f32 (seq_sum ((fun x => (x * dec 1 5)%fl)
                            <$> window (base_action.*2) 1))).
Proof.
  intros base_action. apply (smooth_base_action_window base_action 1).
  - cbn. lia.
  - cbn. lia.
Defined.

Section SmoothingExact.
Import Exact.

Lemma foldl_add_scaled (c a : Qc) (l : list Qc) :
  foldl fadd (Fin a) ((fun x => (x * Fin c)%fl) <$> (Fin <$> l))
  = Fin (a + Qcsum l * c).
Proof.
  revert a. induction l as [|q l IH]; intros a.
  - cbn. f_equal. ring.
  - cbn [fmap list_fmap foldl].
    change (Fin a + Fin q * Fin c)%fl with (Fin (a + q * c)).
    rewrite IH. f_equal. cbn [Qcsum foldr]. fold (Qcsum l). ring.
Qed.

Lemma window_fmap {A B} (f : A -> B) (l : list A) (j : nat) :
  window (f <$> l) j = f <$> window l j.
Proof. unfold window. by rewrite fmap_take, fmap_drop. Qed.

(** X15: in exact arithmetic, for five finite base actions or more, row
    [j] of the smoothed sequence is, in each component, one fifth of the
    sum of the rows [j - 2] to [j + 2] that exist: the mean of five
    neighbours inside the sequence, and a sum of three or four rows
    still divided by five at its two ends. *)
Theorem smooth_base_action_mean (actions : list (Qc * Qc)) (j : nat) :
  (5 <= length actions)%nat -> (j < length actions)%nat ->
  exists out,
    smooth_base_action ((fun q => (Fin q.1, Fin q.2)) <$> actions)
    = Returned out /\
    out !! j
    = Some (Fin (Qcsum (window (actions.*1) j) / Q2Qc (inject_Z 5)),
            Fin (Qcsum (window (actions.*2) j) / Q2Qc (inject_Z 5))).
Proof.
  intros Hlen Hj. unfold smooth_base_action.
  change ((fun x => (x / of_int 5)%fl) <$> ones 5)
    with (replicate 5 (dec (F:=Exact.t) 1 5)).
  rewrite dec_exact by done.
  set (c := (Q2Qc (inject_Z 1) / Q2Qc (inject_Z 5))%Qc).
  rewrite <- !list_fmap_compose.
  change (fst ∘ (fun q : Qc * Qc => (Fin q.1, Fin q.2))) with (Fin ∘ fst (B:=Qc)).
  change (snd ∘ (fun q : Qc * Qc => (Fin q.1, Fin q.2))) with (Fin ∘ snd (A:=Qc)).
  rewrite !list_fmap_compose.
  destruct (convolve_same_window (Fin c) (Fin <$> actions.*1) j)
    as (c0 & Hc0 & Hj0); [by rewrite !length_fmap..|].
  destruct (convolve_same_window (Fin c) (Fin <$> actions.*2) j)
    as (c1 & Hc1 & Hj1); [by rewrite !length_fmap..|].
  rewrite Hc0, Hc1, !bind_Returned. eexists. split; [reflexivity|].
  rewrite list_lookup_fmap, (zip_lookup _ _ _ _ _ Hj0 Hj1).
  rewrite !window_fmap. unfold seq_sum.
  change (of_int 0) with (Fin 0). rewrite !foldl_add_scaled.
  assert (Hmean : forall x : Qc, (0 + x * c = x / Q2Qc (inject_Z 5))%Qc).
  { intros x. unfold c. change (Q2Qc (inject_Z 1)) with 1%Qc.
    field. by apply Q2Qc_inject_Z_nonzero. }
  by rewrite !Hmean.
Qed.

End SmoothingExact.

Lemma smooth_base_action_mean_witness :
  let z (n : Z) : Qc := Q2Qc (inject_Z n) in
  let actions := [(z 1, z 0); (z 2, z 0); (z 3, z 1);
                  (z 4, z 0); (z 5, z 0); (z 6, z 1)] in
  exists out,
    smooth_base_action ((fun q => (Exact.Fin q.1, Exact.Fin q.2)) <$> actions)
    = Returned out /\
    out !! 0%nat
    = Some (Exact.Fin (Qcsum (window (actions.*1) 0) / Q2Qc (inject_Z 5)),
            Exact.Fin (Qcsum (window (actions.*2) 0) / Q2Qc (inject_Z 5))).
Proof.
  intros z actions. apply (smooth_base_action_mean actions 0).
  - cbn. lia.
  - cbn. lia.
Defined.

(** ** Calibration and post-processing together *)

Section BaseActionAlgebra.
Import Exact.

(** X16: in exact arithmetic two calibrations in a row are one calibration
    with the sum of the two coefficients; so calibrating with [-c] undoes a
    calibration with [c]. *)
Theorem calibrate_linear_vel_compose (linear_vel angular_vel c1 c2 : Qc) :
  calibrate_linear_vel
    (calibrate_linear_vel (Fin linear_vel, Fin angular_vel) (Some (Fin c1)))
    (Some (Fin c2))
  = calibrate_linear_vel (Fin linear_vel, Fin angular_vel)
                         (Some (Fin (c1 + c2))) /\
  calibrate_linear_vel
    (calibrate_linear_vel (Fin linear_vel, Fin angular_vel) (Some (Fin c1)))
    (Some (Fin (- c1)))
  = (Fin linear_vel, Fin angular_vel).
Proof.
  unfold calibrate_linear_vel. cbn. split; do 2 f_equal; ring.
Qed.

(** X17: in exact arithmetic the order of calibration and post-processing
    matters: scaling the angular velocity before the calibration gives the
    same action as scaling it afterwards only when [c * angular_vel] is
    zero. *)
Theorem calibrate_postprocess_order (linear_vel angular_vel c : Qc) :
  calibrate_linear_vel
    (postprocess_base_action (Fin linear_vel, Fin angular_vel)) (Some (Fin c))
  = postprocess_base_action
      (calibrate_linear_vel (Fin linear_vel, Fin angular_vel) (Some (Fin c)))
  <-> (c * angular_vel = 0)%Qc.
Proof.
  rewrite !postprocess_base_action_formula.
  unfold calibrate_linear_vel. cbn [fst snd].
  rewrite postprocess_base_action_formula, dec_exact by done.
  set (k := (Q2Qc (inject_Z 9) / Q2Qc (inject_Z 10))%Qc).
  assert (Hk : (Q2Qc (inject_Z 10) * (1 - k) = 1)%Qc).
  { unfold k. change (Q2Qc (inject_Z 9)) with (Q2Qc (inject_Z 10) - 1)%Qc.
    field. by apply Q2Qc_inject_Z_nonzero. }
  change (Fin linear_vel - Fin c * (Fin angular_vel * Fin k))%fl
    with (Fin (linear_vel - c * (angular_vel * k))).
  change (Fin linear_vel - Fin c * Fin angular_vel)%fl
    with (Fin (linear_vel - c * angular_vel)).
  split.
  - intros Heq.
    apply (f_equal (fun p => match p.1 with Fin q => q | NonFinite => 0%Qc end))
      in Heq.
    cbn [fst] in Heq.
    assert (Hz : (c * angular_vel
                  = Q2Qc (inject_Z 10) * (1 - k) * (c * angular_vel))%Qc)
      by (rewrite Hk; ring).
    rewrite Hz.
    transitivity (Q2Qc (inject_Z 10)
                  * ((linear_vel - c * (angular_vel * k))
                     - (linear_vel - c * angular_vel)))%Qc; [ring|].
    rewrite Heq. ring.
  - intros Hz. do 2 f_equal.
    transitivity (linear_vel - c * angular_vel * k)%Qc; [ring|].
    rewrite Hz. ring.
Qed.

End BaseActionAlgebra.

(** ** The callbacks of the cameras *)

(** X18: every camera of an [ImageRecorder] has a branch in the chain of
    [__init__] that picks its callback (so that [NotImplementedError] is
    never raised), and the callback picked records under the name of that
    same camera. *)
Theorem callbacks_match_cameras {F} `{PyFloat F} {Raw Mat : Type}
    (imgmsg_to_cv2 : Raw -> Mat) (is_mobile is_debug : bool) :
  Forall (fun cam =>
            callback_func imgmsg_to_cv2 cam
            = Some (fun self msg =>
                      ImageRecorder.image_cb imgmsg_to_cv2 self cam msg))
         (ImageRecorder.camera_names
            (ImageRecorder.init (F:=F) (Mat:=Mat) is_mobile is_debug)).
Proof.
  apply Forall_forall. intros cam Hcam. by eapply callback_func_init.
Qed.

(** ** The rate a recorder prints *)

Section RecorderRate.
Import Exact.

Lemma freq_last_n (ts : list Exact.t) (d : Qc) (n : nat) :
  (2 <= n)%nat -> (2 <= length ts)%nat -> (0 < d)%Qc ->
  (forall i a b, ts !! i = Some a -> ts !! S i = Some b -> (b - a)%fl = Fin d) ->
  freq (last_n n ts) = Fin (1 / d)%Qc.
Proof.
  intros Hn Hlen Hd Hdiff. unfold freq, dt_helper.
  rewrite (diff_constant (last_n n ts) d).
  - rewrite np_mean_replicate
      by (unfold last_n; rewrite length_drop; lia).
    cbn. unfold Exact.div. destruct (decide _) as [->|_]; [|done].
    vm_compute in Hd. discriminate Hd.
  - unfold last_n. intros i a b. rewrite !lookup_drop.
    rewrite Nat.add_succ_r. apply Hdiff.
Qed.

(** X19: in exact arithmetic, a [Recorder] in debug mode that has received
    two joint states or more, at clock readings that are a constant [d > 0]
    apart, prints [1 / d] as [joint_freq], however many messages there were
    and whatever arrived on the other two topics. *)
Theorem recorder_rate_received (ms : list (message (F:=Exact.t))) (d : Qc) :
  (2 <= length (joint_states_of ms))%nat ->
  (0 < d)%Qc ->
  (forall i a b,
      (joint_states_of ms).*2 !! i = Some a ->
      (joint_states_of ms).*2 !! S i = Some b -> (b - a)%fl = Fin d) ->
  (Recorder.print_diagnostics (on_messages (Recorder.init true) ms)).2
  = Returned tt /\
  Exists (prints_rate "joint_freq" (Fin (1 / d)%Qc))
         (Recorder.print_diagnostics (on_messages (Recorder.init true) ms)).1.
Proof.
  intros Hlen Hd Hdiff. rewrite on_messages_state.
  split; [done|]. apply Exists_cons_hd. cbn -[freq].
  rewrite (freq_last_n _ d) by (rewrite ?length_fmap; done || lia).
  apply elem_of_cons. by left.
Qed.

End RecorderRate.

Lemma recorder_rate_received_witness :
  let state : Msg.JointState Exact.t :=
    {| Msg.position := []; Msg.velocity := []; Msg.effort := [] |} in
  let ms := [JointStates state (dec 0 10);
             JointSingle {| Msg.name := "gripper"; Msg.cmd := dec 1 2 |} (dec 0 10);
             JointStates state (dec 1 10);
             JointStates state (dec 2 10)] in
  (Recorder.print_diagnostics (on_messages (Recorder.init true) ms)).2
  = Returned tt /\
  Exists (prints_rate "joint_freq" (Exact.Fin (1 / Q2Qc (1 # 10))%Qc))
         (Recorder.print_diagnostics (on_messages (Recorder.init true) ms)).1.
Proof.
  intros state ms. apply (recorder_rate_received ms (Q2Qc (1 # 10))).
  - cbn. lia.
  - reflexivity.
  - intros [|[|[|i]]] a b Ha Hb; cbn in Ha, Hb; try discriminate;
      injection Ha as <-; injection Hb as <-;
      (cbn; f_equal; apply Qc_is_canon; reflexivity).
Defined.

(** ** One camera's callback and the other cameras *)

(** X20: whatever the object and the camera names, [image_cb] stores the
    converted image and the two parts of the stamp under its camera's own
    names, and leaves the image, the stamp and the history of every other
    camera as they were: the names of two cameras' attributes never
    coincide. *)
Theorem image_cb_frame {F} `{PyFloat F} {Raw Mat : Type}
    (imgmsg_to_cv2 : Raw -> Mat)
    (self : ImageRecorder.t (F:=F) (Mat:=Mat))
    (cam_name other : string) (msg : Msg.Image Raw) :
  cam_name <> other ->
  let self' := (ImageRecorder.image_cb imgmsg_to_cv2 self cam_name msg).1 in
  ImageRecorder.attrs self' !! (cam_name +:+ "_image")
  = Some (ImageRecorder.AImage (imgmsg_to_cv2 (Msg.data msg))) /\
  ImageRecorder.attrs self' !! (cam_name +:+ "_secs")
  = Some (ImageRecorder.AInt (Msg.secs (Msg.stamp (Msg.header msg)))) /\
  ImageRecorder.attrs self' !! (cam_name +:+ "_nsecs")
  = Some (ImageRecorder.AInt (Msg.nsecs (Msg.stamp (Msg.header msg)))) /\
  Forall (fun suffix =>
            ImageRecorder.attrs self' !! (other +:+ suffix)
            = ImageRecorder.attrs self !! (other +:+ suffix))
         ["_image"; "_secs"; "_nsecs"; "_timestamps"].
Proof.
  intros Hne self'. split; [apply image_cb_image|].
  assert (Hown : forall v1 v2 v3 (m : gmap string (ImageRecorder.attr (F:=F) (Mat:=Mat))),
    let m' := <[cam_name +:+ "_nsecs" := v3]>
                (<[cam_name +:+ "_secs" := v2]>
                   (<[cam_name +:+ "_image" := v1]> m)) in
    m' !! (cam_name +:+ "_secs") = Some v2 /\
    m' !! (cam_name +:+ "_nsecs") = Some v3).
  { intros. subst m'. split.
    - rewrite lookup_insert_ne by attr_names. by rewrite lookup_insert_eq.
    - by rewrite lookup_insert_eq. }
  assert (Hstamp :
    ImageRecorder.attrs self' !! (cam_name +:+ "_secs")
    = Some (ImageRecorder.AInt (Msg.secs (Msg.stamp (Msg.header msg)))) /\
    ImageRecorder.attrs self' !! (cam_name +:+ "_nsecs")
    = Some (ImageRecorder.AInt (Msg.nsecs (Msg.stamp (Msg.header msg))))).
  { subst self'. unfold ImageRecorder.image_cb. cbn.
    destruct (ImageRecorder.is_debug self); [|apply Hown].
    destruct (ImageRecorder.getattr _ _) as [[]|]; cbn; try apply Hown.
    rewrite !(lookup_insert_ne _ (cam_name +:+ "_timestamps")) by attr_names.
    apply Hown. }
  destruct Hstamp as [Hsecs Hnsecs]. split; [done|]. split; [done|].
  subst self'. repeat constructor; apply image_cb_other; attr_names.
Qed.

Lemma image_cb_frame_witness :
  let msg : Msg.Image unit :=
    {| Msg.header := {| Msg.stamp := {| Msg.secs := 7; Msg.nsecs := 5 |} |};
       Msg.data := tt |} in
  let self := ImageRecorder.init (F:=float) (Mat:=unit) false true in
  let self' := (ImageRecorder.image_cb (fun raw : unit => raw) self "cam_low" msg).1 in
  ImageRecorder.attrs self' !! ("cam_low" +:+ "_image")
  = Some (ImageRecorder.AImage tt) /\
  ImageRecorder.attrs self' !! ("cam_low" +:+ "_secs")
  = Some (ImageRecorder.AInt 7) /\
  ImageRecorder.attrs self' !! ("cam_low" +:+ "_nsecs")
  = Some (ImageRecorder.AInt 5) /\
  Forall (fun suffix =>
            ImageRecorder.attrs self' !! ("cam_high" +:+ suffix)
            = ImageRecorder.attrs self !! ("cam_high" +:+ suffix))
         ["_image"; "_secs"; "_nsecs"; "_timestamps"].
Proof.
  intros msg self self'.
  apply (image_cb_frame (fun raw : unit => raw) self "cam_low" "cam_high" msg).
  discriminate.
Defined.
